(** * The name/dimension allocator of [pyro.contrib.funsor.handlers.runtime]

    A shallow embedding of [StackFrame], [DimType], the two request
    descriptors and [DimStack], followed by the properties of the allocator.

    Python objects are shared by reference: the global frame is also the
    current frame while the stack has length one, and the frames listed in
    [parents] / [iter_parents] may be frames of the stack.  Frames therefore
    live in a store and are named by references. *)

From stdpp Require Import gmap strings pretty list.

Open Scope Z_scope.

(** ** Exceptions and results *)

Inductive exn :=
  | AssertionError
  | ValueError (msg : string)
  | TypeError
  | IndexError
  | NonTermination.

Inductive result (A : Type) :=
  | Ok (a : A)
  | Raise (e : exn).
Arguments Ok {A} a.
Arguments Raise {A} e.

#[global] Instance result_ret : MRet result := λ A a, Ok a.
#[global] Instance result_bind : MBind result := λ A B f m,
  match m with Ok a => f a | Raise e => Raise e end.

(** [assert cond] *)
Definition assert_ (cond : bool) : result unit :=
  if cond then Ok () else Raise AssertionError.

(** [d.get(key, default)] for a key that may be [None]; the dictionaries of a
    frame never hold the key [None] ([write] asserts both arguments). *)
Definition dict_get `{Countable K} {V} (d : gmap K V) (key : option K)
    (dflt : option V) : option V :=
  match key with
  | Some k => match d !! k with Some v => Some v | None => dflt end
  | None => dflt
  end.

(** [key in d] *)
Definition dict_in `{Countable K} {V} (key : option K) (d : gmap K V) : bool :=
  match key with
  | Some k => bool_decide (is_Some (d !! k))
  | None => false
  end.

(** [d.pop(key, None)], keeping the dictionary only *)
Definition dict_pop `{Countable K} {V} (d : gmap K V) (key : option K) : gmap K V :=
  match key with
  | Some k => delete k d
  | None => d
  end.

(** ** StackFrame *)

Definition fref := nat.

Record StackFrame := mkStackFrame {
  name_to_dim : gmap string Z;
  dim_to_name : gmap Z string;
  parents : list fref;
  iter_parents : list fref;
  keep : bool;
}.

Definition read (self : StackFrame) (name : option string) (dim : option Z)
    : option string * option Z * bool :=
  let found_name := dict_get (dim_to_name self) dim name in
  let found_dim := dict_get (name_to_dim self) name dim in
  let found := dict_in name (name_to_dim self) || dict_in dim (dim_to_name self) in
  (found_name, found_dim, found).

Definition write (self : StackFrame) (name : option string) (dim : option Z)
    : result StackFrame :=
  match name, dim with
  | Some n, Some d =>
      Ok (mkStackFrame (<[n := d]> (name_to_dim self))
                       (<[d := n]> (dim_to_name self))
                       (parents self) (iter_parents self) (keep self))
  | _, _ => Raise AssertionError
  end.

Definition free (self : StackFrame) (name : option string) (dim : option Z)
    : (option string * option Z) * StackFrame :=
  ((name, dim),
   mkStackFrame (dict_pop (name_to_dim self) name)
                (dict_pop (dim_to_name self) dim)
                (parents self) (iter_parents self) (keep self)).

(** ** DimType and the request descriptors *)

Inductive DimType := LOCAL | GLOBAL | VISIBLE.

#[global] Instance DimType_eq_dec : EqDecision DimType.
Proof. solve_decision. Defined.

Record DimRequest := mkDimRequest {
  dr_dim : option Z;
  dr_dim_type : DimType;
}.

Record NameRequest := mkNameRequest {
  nr_name : option string;
  nr_dim_type : DimType;
}.

(** The two arguments of [request]: each is either a request descriptor or a
    plain value (possibly [None]). *)
Inductive name_arg :=
  | NameReq (r : NameRequest)
  | NameVal (v : option string).

Inductive dim_arg :=
  | DimReq (r : DimRequest)
  | DimVal (v : option Z).

(** ** DimStack *)

Record DimStack := mkDimStack {
  store : gmap fref StackFrame;
  _stack : list fref;
  _first_available_dim : option Z;
  outermost : option fref;
}.

Definition MAX_DIM : Z := -25.

(** [StackFrame(OrderedDict(), OrderedDict(), (), (), False)] *)
Definition empty_frame : StackFrame := mkStackFrame ∅ ∅ [] [] false.

(** The frame a reference denotes.  The store is total: a reference that no
    constructor call has produced denotes a frame with empty dictionaries. *)
Definition frame_at (s : DimStack) (r : fref) : StackFrame :=
  default empty_frame (store s !! r).

Definition set_frame (s : DimStack) (r : fref) (f : StackFrame) : DimStack :=
  mkDimStack (<[r := f]> (store s)) (_stack s) (_first_available_dim s) (outermost s).

Definition set_stack (s : DimStack) (st : list fref) : DimStack :=
  mkDimStack (store s) st (_first_available_dim s) (outermost s).

(** [DimStack.__init__] *)
Definition DimStack_init : DimStack :=
  mkDimStack {[ 0%nat := empty_frame ]} [0%nat] (Some (-1)) None.

(** The constructor call [StackFrame(name_to_dim=.., ...)]: a new object. *)
Definition new_frame (s : DimStack) (f : StackFrame) : fref * DimStack :=
  let r := fresh (dom (store s)) in (r, set_frame s r f).

Definition set_first_available_dim (s : DimStack) (dim : option Z)
    : result (option Z * DimStack) :=
  _ ← assert_ (match dim with
               | None => true
               | Some d => (MAX_DIM <? d) && (d <? 0)
               end);
  Ok (_first_available_dim s,
      mkDimStack (store s) (_stack s) dim (outermost s)).

Definition push (s : DimStack) (frame : fref) : result (unit * DimStack) :=
  Ok ((), set_stack s (_stack s ++ [frame])).

Definition pop (s : DimStack) : result (fref * DimStack) :=
  _ ← assert_ (1 <? length (_stack s))%nat;
  match last (_stack s) with
  | Some top => Ok (top, set_stack s (removelast (_stack s)))
  | None => Raise IndexError
  end.

Definition current_frame (s : DimStack) : result fref :=
  match last (_stack s) with
  | Some r => Ok r
  | None => Raise IndexError
  end.

Definition global_frame (s : DimStack) : result fref :=
  match head (_stack s) with
  | Some r => Ok r
  | None => Raise IndexError
  end.

Definition current_env (s : DimStack) : result (list fref) :=
  g ← global_frame s;
  c ← current_frame s;
  Ok ([g; c] ++ iter_parents (frame_at s c) ++ parents (frame_at s c)).

(** *** [_gendim] *)

(** [any(fresh_dim in p.dim_to_name for p in conflict_frames)] *)
Definition in_any_dim_to_name (s : DimStack) (conflict_frames : list fref)
    (fresh_dim : Z) : bool :=
  existsb (λ p, dict_in (Some fresh_dim) (dim_to_name (frame_at s p)))
          conflict_frames.

(** The [while] loop of [_gendim]: [fresh_dim -= 1] as long as the test
    holds.  The loop is run with a bound on its iterations; [None] stands for
    a loop that has not stopped within the bound. *)
Fixpoint while_taken (fuel : nat) (taken : Z → bool) (fresh_dim : Z) : option Z :=
  match fuel with
  | O => None
  | S fuel' =>
      if taken fresh_dim then while_taken fuel' taken (fresh_dim - 1)
      else Some fresh_dim
  end.

(** All dims bound in some frame of the collision set. *)
Definition taken_dims (s : DimStack) (conflict_frames : list fref) : gset Z :=
  ⋃ (map (λ p, dom (dim_to_name (frame_at s p))) conflict_frames).

(** The bound given to the loop: one more than the number of bound dims. *)
Definition loop_bound (s : DimStack) (conflict_frames : list fref) : nat :=
  S (size (taken_dims s conflict_frames)).

(** ["_pyro_dim_{}".format(-dim)] *)
Definition default_name (dim : Z) : string :=
  "_pyro_dim_" +:+ pretty (- dim).

(** Lines 92-95: the candidate name.  [-None] is a [TypeError]. *)
Definition fresh_name_of (name_request : NameRequest) (dim_request : DimRequest)
    : result string :=
  match nr_name name_request with
  | None =>
      match dr_dim dim_request with
      | None => Raise TypeError
      | Some d => Ok (default_name d)
      end
  | Some n => Ok n
  end.

(** Lines 98-104: the candidate dim. *)
Definition fresh_dim_of (s : DimStack) (conflict_frames : list fref)
    (dim_request : DimRequest) : result Z :=
  match dr_dim dim_request with
  | None =>
      let fresh_dim :=
        if bool_decide (dr_dim_type dim_request ≠ VISIBLE)
        then _first_available_dim s else Some (-1) in
      let fresh_dim := match fresh_dim with None => -1 | Some d => d end in
      match while_taken (loop_bound s conflict_frames)
                        (in_any_dim_to_name s conflict_frames) fresh_dim with
      | Some d => Ok d
      | None => Raise NonTermination
      end
  | Some d => Ok d
  end.

Definition ran_out (fresh_name : string) : exn :=
  ValueError ("Ran out of free dims during allocation for " +:+ fresh_name).

(** Lines 106-109: the three tests, evaluated left to right; comparing an
    integer with [None] is a [TypeError]. *)
Definition validate (s : DimStack) (conflict_frames : list fref)
    (dim_type : DimType) (fresh_name : string) (fresh_dim : Z) : result unit :=
  if (fresh_dim <? MAX_DIM) || in_any_dim_to_name s conflict_frames fresh_dim
  then Raise (ran_out fresh_name)
  else if bool_decide (dim_type = VISIBLE) then
    match _first_available_dim s with
    | None => Raise TypeError
    | Some w => if fresh_dim <=? w then Raise (ran_out fresh_name) else Ok ()
    end
  else Ok ().

Definition _gendim (s : DimStack) (name_request : NameRequest)
    (dim_request : DimRequest) : result (string * Z) :=
  let dim_type := dr_dim_type dim_request in
  fresh_name ← fresh_name_of name_request dim_request;
  conflict_frames ← current_env s;
  fresh_dim ← fresh_dim_of s conflict_frames dim_request;
  _ ← validate s conflict_frames dim_type fresh_name fresh_dim;
  Ok (fresh_name, fresh_dim).

(** *** [request] *)

(** The assertion and the unpacking of the two arguments: exactly one of
    them is a request descriptor, and the policy is taken from it. *)
Definition unpack (name : name_arg) (dim : dim_arg)
    : result (option string * option Z * DimType) :=
  match name, dim with
  | NameVal n, DimReq r => Ok (n, dr_dim r, dr_dim_type r)
  | NameReq r, DimVal d => Ok (nr_name r, d, nr_dim_type r)
  | NameReq _, DimReq _ | NameVal _, DimVal _ => Raise AssertionError
  end.

(** The read loop: [for frame in self.current_env: ...; if found: break].
    [current_env] has at least two entries, so [found] is always bound. *)
Fixpoint read_env (s : DimStack) (env : list fref) (name : option string)
    (dim : option Z) : option string * option Z * bool :=
  match env with
  | [] => (name, dim, false)
  | frame :: env' =>
      let '(name', dim', found) := read (frame_at s frame) name dim in
      if found then (name', dim', true) else read_env s env' name' dim'
  end.

Definition write_frames (s : DimStack) (dim_type : DimType) : result (list fref) :=
  if bool_decide (dim_type ≠ LOCAL) then
    g ← global_frame s; Ok [g]
  else
    c ← current_frame s;
    Ok (c :: (if keep (frame_at s c) then parents (frame_at s c) else [])).

(** [frame.write(name, dim)] on the frame a reference denotes *)
Definition write_at (s : DimStack) (frame : fref) (name : option string)
    (dim : option Z) : result DimStack :=
  f ← write (frame_at s frame) name dim;
  Ok (set_frame s frame f).

(** [frame.free(name, dim)] on the frame a reference denotes *)
Definition free_at (s : DimStack) (frame : fref) (name : option string)
    (dim : option Z) : (option string * option Z) * DimStack :=
  let '(r, f) := free (frame_at s frame) name dim in (r, set_frame s frame f).

(** [for frame in write_frames: frame.write(name, dim)] *)
Fixpoint write_all (s : DimStack) (frames : list fref) (name : option string)
    (dim : option Z) : result DimStack :=
  match frames with
  | [] => Ok s
  | frame :: frames' =>
      s' ← write_at s frame name dim;
      write_all s' frames' name dim
  end.

Definition request (s : DimStack) (name : name_arg) (dim : dim_arg)
    : result ((option string * option Z) * DimStack) :=
  '(name, dim, dim_type) ← unpack name dim;
  env ← current_env s;
  let '(name, dim, found) := read_env s env name dim in
  if found then Ok ((name, dim), s)
  else
    '(name, dim) ← _gendim s (mkNameRequest name dim_type)
                              (mkDimRequest dim dim_type);
    frames ← write_frames s dim_type;
    s' ← write_all s frames (Some name) (Some dim);
    Ok ((Some name, Some dim), s').

(** ** Sequences of operations *)

Inductive op :=
  | OpNewFrame (parents iter_parents : list fref) (keep : bool)
  | OpWrite (frame : fref) (name : option string) (dim : option Z)
  | OpFree (frame : fref) (name : option string) (dim : option Z)
  | OpPush (frame : fref)
  | OpPop
  | OpSetFirstAvailableDim (dim : option Z)
  | OpRequest (name : name_arg) (dim : dim_arg).

(** One operation; [OpNewFrame] builds a frame as a scope entry does, with
    two empty dictionaries. *)
Definition step (s : DimStack) (o : op) : result DimStack :=
  match o with
  | OpNewFrame ps ips k => Ok (new_frame s (mkStackFrame ∅ ∅ ps ips k)).2
  | OpWrite r n d => write_at s r n d
  | OpFree r n d => Ok (free_at s r n d).2
  | OpPush r => '(_, s') ← push s r; Ok s'
  | OpPop => '(_, s') ← pop s; Ok s'
  | OpSetFirstAvailableDim d => '(_, s') ← set_first_available_dim s d; Ok s'
  | OpRequest n d => '(_, s') ← request s n d; Ok s'
  end.

(** An operation that raises leaves the state as it was: every exception
    above is raised before the first mutation. *)
Definition exec (s : DimStack) (o : op) : DimStack :=
  match step s o with Ok s' => s' | Raise _ => s end.

Definition run (s : DimStack) (ops : list op) : DimStack :=
  foldl exec s ops.

(** The unpacking and the read loop of [request], up to [found]. *)
Definition lookup_phase (s : DimStack) (name : name_arg) (dim : dim_arg)
    : result (option string * option Z * bool * DimType) :=
  '(name, dim, dim_type) ← unpack name dim;
  env ← current_env s;
  let '(name, dim, found) := read_env s env name dim in
  Ok (name, dim, found, dim_type).

(** What [write] stores when both arguments are present. *)
Definition bind_pair (name : string) (dim : Z) (self : StackFrame) : StackFrame :=
  mkStackFrame (<[name := dim]> (name_to_dim self))
               (<[dim := name]> (dim_to_name self))
               (parents self) (iter_parents self) (keep self).

(** ** Example states *)

(** After [set_first_available_dim(-3)] on a new [DimStack]. *)
Definition st_watermark : DimStack :=
  exec DimStack_init (OpSetFirstAvailableDim (Some (-3))).


(** After [request(NameRequest("x"), None)] on a new [DimStack]. *)
Definition st_x : DimStack :=
  exec DimStack_init
       (OpRequest (NameReq (mkNameRequest (Some "x") LOCAL)) (DimVal None)).

(** A scope with [keep] set and the global frame as its parent, entered
    after "x" was bound. *)
Definition st_nested : DimStack :=
  run st_x [OpNewFrame [0%nat] [] true; OpPush 1%nat].

(** [st_nested] after [request(NameRequest("y"), None)]. *)
Definition st_nested_y : DimStack :=
  exec st_nested
       (OpRequest (NameReq (mkNameRequest (Some "y") LOCAL)) (DimVal None)).

(** A run through one nested scope: two named requests, one request by
    dim, a [write] and a [free] of the same pair, and the scope's exit. *)
Definition scope_ops : list op :=
  [ OpRequest (NameReq (mkNameRequest (Some "x") LOCAL)) (DimVal None);
    OpNewFrame [0%nat] [] true;
    OpPush 1%nat;
    OpRequest (NameReq (mkNameRequest (Some "y") LOCAL)) (DimVal None);
    OpRequest (NameVal None) (DimReq (mkDimRequest (Some (-4)) GLOBAL));
    OpWrite 1%nat (Some "z") (Some (-5));
    OpFree 1%nat (Some "z") (Some (-5));
    OpPop ].

(** [st_nested] after the inner frame was made to bind "x" to -9 by hand,
    while the global frame binds it to -1. *)
Definition st_shadow : DimStack :=
  exec st_nested (OpWrite 1%nat (Some "x") (Some (-9))).

(** Watermark -24, and both -24 and -25 bound in the global frame. *)
Definition st_full : DimStack :=
  run DimStack_init
      [ OpSetFirstAvailableDim (Some (-24));
        OpWrite 0%nat (Some "a") (Some (-24));
        OpWrite 0%nat (Some "b") (Some (-25)) ].

(** ** Invariants *)

(** The two dictionaries of a frame are inverse to each other. *)
Definition frame_bij (f : StackFrame) : Prop :=
  ∀ n d, name_to_dim f !! n = Some d ↔ dim_to_name f !! d = Some n.

Definition all_bij (s : DimStack) : Prop :=
  ∀ r, frame_bij (frame_at s r).

(** [name] and [dim] have no other partner in the frame. *)
Definition compatible (f : StackFrame) (name : option string) (dim : option Z) : Prop :=
  (∀ n d', name = Some n → name_to_dim f !! n = Some d' → dim = Some d') ∧
  (∀ d n', dim = Some d → dim_to_name f !! d = Some n' → name = Some n').

(** The frame is one of those [current_env] lists. *)
Definition in_current_env (s : DimStack) (r : fref) : Prop :=
  ∃ env, current_env s = Ok env ∧ r ∈ env.

(** [compatible], as a test. *)
Definition compatibleb (f : StackFrame) (name : option string) (dim : option Z) : bool :=
  match name with
  | Some n =>
      match name_to_dim f !! n with
      | Some d' => bool_decide (dim = Some d')
      | None => true
      end
  | None => true
  end &&
  match dim with
  | Some d =>
      match dim_to_name f !! d with
      | Some n' => bool_decide (name = Some n')
      | None => true
      end
  | None => true
  end.

(** The steps that keep the dictionaries inverse: a [write] or [free] whose
    arguments have no other partner in the frame, and a [request] that does
    not allocate under a default name some frame it writes already knows.
    A [request] that is answered by the lookup or that carries its name is
    never excluded. *)
Definition step_safe (s : DimStack) (o : op) : Prop :=
  match o with
  | OpWrite r n d | OpFree r n d => compatible (frame_at s r) n d
  | OpRequest name dim =>
      ∀ d ty frames r,
        lookup_phase s name dim = Ok (None, Some d, false, ty) →
        write_frames s ty = Ok frames →
        r ∈ frames →
        name_to_dim (frame_at s r) !! default_name d = None
  | OpNewFrame _ _ _ | OpPush _ | OpPop | OpSetFirstAvailableDim _ => True
  end.

Fixpoint run_safe (s : DimStack) (ops : list op) : Prop :=
  match ops with
  | [] => True
  | o :: ops' => step_safe s o ∧ run_safe (exec s o) ops'
  end.

(** The watermark is unset or lies strictly between [MAX_DIM] and 0, which
    is what [set_first_available_dim] asserts of its argument. *)
Definition watermark_ok (s : DimStack) : Prop :=
  match _first_available_dim s with
  | None => True
  | Some w => MAX_DIM < w < 0
  end.

(** Where the search of [_gendim] starts. *)
Definition search_start (s : DimStack) (dim_type : DimType) : Z :=
  if bool_decide (dim_type ≠ VISIBLE)
  then default (-1) (_first_available_dim s) else -1.

(** No dim has two names across the frames of the current environment. *)
Definition env_consistent (s : DimStack) : Prop :=
  ∀ env r1 r2 d n1 n2,
    current_env s = Ok env → r1 ∈ env → r2 ∈ env →
    dim_to_name (frame_at s r1) !! d = Some n1 →
    dim_to_name (frame_at s r2) !! d = Some n2 →
    n1 = n2.

(** [k] calls of [pop] in a row, with the frames they return, in order. *)
Fixpoint pop_n (k : nat) (s : DimStack) : result (list fref * DimStack) :=
  match k with
  | O => Ok ([], s)
  | S k' =>
      '(top, s1) ← pop s;
      '(rest, s2) ← pop_n k' s1;
      Ok (top :: rest, s2)
  end.

(** * Basic facts *)

Section frame_facts.
Implicit Types (f : StackFrame) (name : option string) (dim : option Z).

Lemma dict_in_true `{Countable K} {V} (k : option K) (d : gmap K V) :
  dict_in k d = true ↔ ∃ k', k = Some k' ∧ is_Some (d !! k').
Proof.
  destruct k as [k|]; simpl.
  - rewrite bool_decide_eq_true. split.
    + intros Hk. by exists k.
    + by intros (k' & [= <-] & Hk).
  - split; [done|]. by intros (k' & [=] & _).
Qed.

Lemma dict_in_false `{Countable K} {V} (k : K) (d : gmap K V) :
  dict_in (Some k) d = false ↔ d !! k = None.
Proof.
  simpl. rewrite bool_decide_eq_false, <- eq_None_not_Some. done.
Qed.

Lemma write_some f n d : write f (Some n) (Some d) = Ok (bind_pair n d f).
Proof. reflexivity. Qed.

Lemma bind_pair_idemp n d f : bind_pair n d (bind_pair n d f) = bind_pair n d f.
Proof. unfold bind_pair; simpl. by rewrite !insert_insert_eq. Qed.

Lemma read_miss f name dim n' d' :
  read f name dim = (n', d', false) →
  n' = name ∧ d' = dim ∧
  dict_in name (name_to_dim f) = false ∧ dict_in dim (dim_to_name f) = false.
Proof.
  unfold read. intros [= Hn Hd Hf].
  apply orb_false_iff in Hf as [Hf1 Hf2].
  repeat split; try done.
  - subst n'. destruct dim as [d|]; simpl in *; [|done].
    pose proof (proj1 (dict_in_false _ _) Hf2) as Hnone. by rewrite Hnone.
  - subst d'. destruct name as [n|]; simpl in *; [|done].
    pose proof (proj1 (dict_in_false _ _) Hf1) as Hnone. by rewrite Hnone.
Qed.

Lemma read_hit f name dim n' d' :
  read f name dim = (n', d', true) → is_Some n' ∧ is_Some d'.
Proof.
  unfold read. intros [= Hn Hd Hf]. subst n' d'.
  apply orb_true_iff in Hf as [Hf|Hf];
    apply dict_in_true in Hf as (k & -> & [v Hv]); simpl; rewrite Hv.
  - split; [|by eexists].
    destruct dim as [d|]; simpl; [|by eexists].
    destruct (dim_to_name f !! d); by eexists.
  - split; [by eexists|].
    destruct name as [n|]; simpl; [|by eexists].
    destruct (name_to_dim f !! n); by eexists.
Qed.
End frame_facts.

Section read_env_facts.
Implicit Types (s : DimStack) (env : list fref).

Lemma read_env_miss s env name dim n' d' :
  read_env s env name dim = (n', d', false) →
  n' = name ∧ d' = dim ∧
  ∀ r, r ∈ env →
    dict_in name (name_to_dim (frame_at s r)) = false ∧
    dict_in dim (dim_to_name (frame_at s r)) = false.
Proof.
  revert name dim. induction env as [|r env IH]; intros name dim; cbn [read_env].
  - intros [= -> ->]. split; [done|]. split; [done|].
    intros r Hr. by apply elem_of_nil in Hr.
  - destruct (read (frame_at s r) name dim) as [[n1 d1] [|]] eqn:Hrd.
    { intros Habs. discriminate Habs. }
    apply read_miss in Hrd as (-> & -> & Hn & Hd).
    intros Hrest. apply IH in Hrest as (-> & -> & Hall).
    split; [done|]. split; [done|].
    intros r' [->|Hin]%elem_of_cons; [done|]. by apply Hall.
Qed.

Lemma read_env_hit s env name dim n' d' :
  read_env s env name dim = (n', d', true) → is_Some n' ∧ is_Some d'.
Proof.
  revert name dim.
  induction env as [|r env IH]; intros name dim; cbn [read_env]; [done|].
  destruct (read (frame_at s r) name dim) as [[n1 d1] [|]] eqn:Hrd.
  - intros [= <- <-]. by eapply read_hit.
  - apply IH.
Qed.
End read_env_facts.

(** ** The search loop *)

Section search_loop.
Variable taken : Z → bool.

(** What the loop returns: the first dim at or below the start on which
    the test fails. *)
Lemma while_taken_stops fuel d0 d :
  while_taken fuel taken d0 = Some d →
  d ≤ d0 ∧ taken d = false ∧ ∀ d', d < d' ≤ d0 → taken d' = true.
Proof.
  revert d0. induction fuel as [|fuel IH]; intros d0; simpl; [done|].
  destruct (taken d0) eqn:Ht.
  - intros (Hle & Hfree & Hbetween)%IH.
    split; [lia|]. split; [done|].
    intros d' Hd'. destruct (decide (d' = d0)) as [->|Hne]; [done|].
    apply Hbetween. lia.
  - intros [= <-]. split; [lia|]. split; [done|]. intros d' Hd'. lia.
Qed.

(** The loop stops within the bound when the test holds on finitely many
    dims only. *)
Lemma while_taken_total (K : gset Z) (fuel : nat) (d0 : Z) :
  (∀ d, taken d = true → d ∈ K) →
  (size (filter (λ k : Z, (k ≤ d0)%Z) K) < fuel)%nat →
  is_Some (while_taken fuel taken d0).
Proof.
  intros HK. revert d0. induction fuel as [|fuel IH]; intros d0 Hsz; [lia|].
  simpl. destruct (taken d0) eqn:Ht; [|by eexists].
  apply IH. eapply Nat.lt_le_trans; [|apply Nat.lt_succ_r, Hsz].
  apply subset_size. split.
  - intros k. rewrite !elem_of_filter. intros [Hk ?]. split; [lia|done].
  - intros Hsub. specialize (Hsub d0).
    rewrite !elem_of_filter in Hsub.
    destruct Hsub as [Hcontra _]; [split; [lia|by apply HK]|]. lia.
Qed.
End search_loop.

Section collision_set.
Implicit Types (s : DimStack) (env : list fref).

Lemma in_any_dim_to_name_true s env d :
  in_any_dim_to_name s env d = true ↔
  ∃ r, r ∈ env ∧ is_Some (dim_to_name (frame_at s r) !! d).
Proof.
  unfold in_any_dim_to_name. rewrite existsb_exists.
  split; intros (r & Hr & Hd); exists r.
  - apply list_elem_of_In in Hr. simpl in Hd.
    by apply bool_decide_eq_true in Hd.
  - split; [by apply list_elem_of_In|]. simpl. by apply bool_decide_eq_true.
Qed.

Lemma in_any_dim_to_name_false s env d :
  in_any_dim_to_name s env d = false ↔
  ∀ r, r ∈ env → dim_to_name (frame_at s r) !! d = None.
Proof.
  rewrite <- not_true_iff_false, in_any_dim_to_name_true. split.
  - intros Hno r Hr. apply eq_None_not_Some. intros Hsome. apply Hno. eauto.
  - intros Hall (r & Hr & Hsome). rewrite (Hall r Hr) in Hsome.
    by destruct Hsome.
Qed.

Lemma in_any_dim_to_name_taken s env d :
  in_any_dim_to_name s env d = true → d ∈ taken_dims s env.
Proof.
  rewrite in_any_dim_to_name_true. intros (r & Hr & Hd).
  unfold taken_dims. apply elem_of_union_list.
  exists (dom (dim_to_name (frame_at s r))). split.
  - apply list_elem_of_fmap. by exists r.
  - by apply elem_of_dom.
Qed.

(** The search of [_gendim] always stops within [loop_bound]. *)
Lemma search_stops s env d0 :
  is_Some (while_taken (loop_bound s env) (in_any_dim_to_name s env) d0).
Proof.
  apply (while_taken_total _ (taken_dims s env)).
  - apply in_any_dim_to_name_taken.
  - unfold loop_bound. apply Nat.lt_succ_r, subseteq_size.
    intros k. rewrite elem_of_filter. by intros [_ ?].
Qed.
End collision_set.

(** ** The store *)

Section store_facts.
Implicit Types (s : DimStack) (r : fref) (f : StackFrame).

Lemma frame_at_set_frame s r f r' :
  frame_at (set_frame s r f) r' = if decide (r = r') then f else frame_at s r'.
Proof.
  unfold frame_at, set_frame; simpl. rewrite lookup_insert.
  by destruct (decide (r = r')).
Qed.

Lemma write_at_some s r n d :
  write_at s r (Some n) (Some d) = Ok (set_frame s r (bind_pair n d (frame_at s r))).
Proof. reflexivity. Qed.

(** The write loop of [request] never raises; it binds the pair in the
    listed frames and touches nothing else. *)
Lemma write_all_spec s frames n d :
  ∃ s', write_all s frames (Some n) (Some d) = Ok s' ∧
    _stack s' = _stack s ∧
    _first_available_dim s' = _first_available_dim s ∧
    outermost s' = outermost s ∧
    (∀ r, r ∈ frames → frame_at s' r = bind_pair n d (frame_at s r)) ∧
    (∀ r, r ∉ frames → store s' !! r = store s !! r).
Proof.
  revert s. induction frames as [|r0 frames IH]; intros s.
  - exists s. repeat split; try done. intros r Hr. by apply elem_of_nil in Hr.
  - cbn [write_all]. rewrite write_at_some. cbn [mbind result_bind].
    destruct (IH (set_frame s r0 (bind_pair n d (frame_at s r0))))
      as (s' & Hw & Hst & Hfad & Hout & Hin & Hout').
    exists s'. split; [done|]. repeat split; try done.
    + intros r Hr. destruct (decide (r ∈ frames)) as [Hrin|Hrout].
      * rewrite (Hin r Hrin), frame_at_set_frame.
        destruct (decide (r0 = r)) as [->|]; [|done].
        apply bind_pair_idemp.
      * apply elem_of_cons in Hr as [->|Hr]; [|done].
        unfold frame_at at 1. rewrite (Hout' r0 Hrout).
        fold (frame_at (set_frame s r0 (bind_pair n d (frame_at s r0))) r0).
        rewrite frame_at_set_frame. by rewrite decide_True.
    + intros r Hr. apply not_elem_of_cons in Hr as [Hne Hr].
      rewrite (Hout' r Hr). simpl. by rewrite lookup_insert_ne.
Qed.
End store_facts.

(** ** Inversion of [_gendim] and [request] *)

Section gendim_facts.
Implicit Types (s : DimStack) (env : list fref) (ty : DimType).

Lemma validate_ok s env ty fn d :
  validate s env ty fn d = Ok () →
  MAX_DIM ≤ d ∧ in_any_dim_to_name s env d = false ∧
  (ty = VISIBLE → ∃ w, _first_available_dim s = Some w ∧ w < d).
Proof.
  unfold validate.
  destruct (d <? MAX_DIM) eqn:Hfloor; [done|].
  destruct (in_any_dim_to_name s env d) eqn:Hany; [done|]. simpl.
  apply Z.ltb_ge in Hfloor. intros Hv. split; [done|]. split; [done|].
  intros ->. rewrite bool_decide_eq_true_2 in Hv by done.
  destruct (_first_available_dim s) as [w|]; cbn [mbind result_bind]; [|done].
  destruct (d <=? w) eqn:Hw; [done|]. apply Z.leb_gt in Hw. eauto.
Qed.

Lemma gendim_ok s nr dr n d :
  _gendim s nr dr = Ok (n, d) →
  fresh_name_of nr dr = Ok n ∧
  ∃ env, current_env s = Ok env ∧ fresh_dim_of s env dr = Ok d ∧
         validate s env (dr_dim_type dr) n d = Ok ().
Proof.
  unfold _gendim.
  destruct (fresh_name_of nr dr) as [fn|] eqn:Hfn; cbn [mbind result_bind]; [|done].
  destruct (current_env s) as [env|] eqn:Henv; cbn [mbind result_bind]; [|done].
  destruct (fresh_dim_of s env dr) as [fd|] eqn:Hfd; cbn [mbind result_bind]; [|done].
  destruct (validate s env (dr_dim_type dr) fn fd) as [[]|] eqn:Hv; cbn [mbind result_bind]; [|done].
  intros [= <- <-]. eauto.
Qed.

Lemma current_env_ok s env :
  current_env s = Ok env →
  ∃ g c, global_frame s = Ok g ∧ current_frame s = Ok c ∧
    env = [g; c] ++ iter_parents (frame_at s c) ++ parents (frame_at s c).
Proof.
  unfold current_env.
  destruct (global_frame s) as [g|]; cbn [mbind result_bind]; [|done].
  destruct (current_frame s) as [c|]; cbn [mbind result_bind]; [|done].
  intros [= <-]. eauto.
Qed.

Lemma write_frames_env s env ty :
  current_env s = Ok env →
  ∃ frames, write_frames s ty = Ok frames ∧ frames ⊆ env.
Proof.
  intros (g & c & Hg & Hc & ->)%current_env_ok. unfold write_frames.
  rewrite Hg, Hc.
  destruct (bool_decide (ty ≠ LOCAL)); eexists; (split; [done|]).
  - intros r ->%list_elem_of_singleton. apply elem_of_cons; by left.
  - intros r [->|Hr]%elem_of_cons.
    + apply elem_of_cons; right. apply elem_of_cons; by left.
    + destruct (keep (frame_at s c)); [|by apply elem_of_nil in Hr].
      do 2 (apply elem_of_cons; right). apply elem_of_app; by right.
Qed.
End gendim_facts.

Section request_facts.
Implicit Types (s : DimStack) (ty : DimType).

Lemma lookup_phase_ok s name dim n d found ty :
  lookup_phase s name dim = Ok (n, d, found, ty) →
  ∃ n0 d0 env, unpack name dim = Ok (n0, d0, ty) ∧ current_env s = Ok env ∧
               read_env s env n0 d0 = (n, d, found).
Proof.
  unfold lookup_phase.
  destruct (unpack name dim) as [[[n0 d0] ty0]|]; cbn [mbind result_bind]; [|done].
  destruct (current_env s) as [env|]; cbn [mbind result_bind]; [|done].
  destruct (read_env s env n0 d0) as [[n1 d1] fnd] eqn:Hrd.
  intros [= <- <- <- <-]. eauto 10.
Qed.

Lemma request_found s name dim n d ty :
  lookup_phase s name dim = Ok (n, d, true, ty) →
  request s name dim = Ok ((n, d), s).
Proof.
  intros (n0 & d0 & env & Hu & Henv & Hrd)%lookup_phase_ok.
  unfold request. rewrite Hu.
  rewrite Henv. cbn [mbind result_bind]. by rewrite Hrd.
Qed.

Lemma request_alloc s name dim n d ty :
  lookup_phase s name dim = Ok (n, d, false, ty) →
  request s name dim =
    '(n', d') ← _gendim s (mkNameRequest n ty) (mkDimRequest d ty);
    frames ← write_frames s ty;
    s' ← write_all s frames (Some n') (Some d');
    Ok ((Some n', Some d'), s').
Proof.
  intros (n0 & d0 & env & Hu & Henv & Hrd)%lookup_phase_ok.
  unfold request. rewrite Hu.
  rewrite Henv. cbn [mbind result_bind]. by rewrite Hrd.
Qed.

(** A failed lookup returns its arguments, and no frame of the environment
    knows either of them. *)
Lemma lookup_phase_miss s name dim n d ty :
  lookup_phase s name dim = Ok (n, d, false, ty) →
  unpack name dim = Ok (n, d, ty) ∧
  ∃ env, current_env s = Ok env ∧
    ∀ r, r ∈ env →
      dict_in n (name_to_dim (frame_at s r)) = false ∧
      dict_in d (dim_to_name (frame_at s r)) = false.
Proof.
  intros (n0 & d0 & env & Hu & Henv & Hrd)%lookup_phase_ok.
  apply read_env_miss in Hrd as (-> & -> & Hall). eauto.
Qed.

(** Everything an allocating [request] does. *)
Lemma request_alloc_inv s name dim n0 d0 ty res s' :
  lookup_phase s name dim = Ok (n0, d0, false, ty) →
  request s name dim = Ok (res, s') →
  ∃ n d env frames,
    res = (Some n, Some d) ∧
    current_env s = Ok env ∧
    _gendim s (mkNameRequest n0 ty) (mkDimRequest d0 ty) = Ok (n, d) ∧
    write_frames s ty = Ok frames ∧ frames ⊆ env ∧
    _stack s' = _stack s ∧
    _first_available_dim s' = _first_available_dim s ∧
    outermost s' = outermost s ∧
    (∀ r, r ∈ frames → frame_at s' r = bind_pair n d (frame_at s r)) ∧
    (∀ r, r ∉ frames → store s' !! r = store s !! r).
Proof.
  intros Hlk. rewrite (request_alloc _ _ _ _ _ _ Hlk).
  apply lookup_phase_miss in Hlk as (Hu & env & Henv & Hmiss).
  destruct (_gendim s _ _) as [[n d]|] eqn:Hg; cbn [mbind result_bind]; [|done].
  destruct (write_frames_env s env ty Henv) as (frames & Hwf & Hsub).
  rewrite Hwf. cbn [mbind result_bind].
  destruct (write_all_spec s frames n d) as (s1 & Hw & Hst & Hfad & Hout & Hin & Hnin).
  rewrite Hw. cbn [mbind result_bind]. intros [= <- <-].
  exists n, d, env, frames. repeat split; done.
Qed.
End request_facts.

Section gendim_validation.
Implicit Types (s : DimStack) (env : list fref) (ty : DimType).

Lemma gendim_validate s nr dr fn env c :
  fresh_name_of nr dr = Ok fn →
  current_env s = Ok env →
  fresh_dim_of s env dr = Ok c →
  _gendim s nr dr = (_ ← validate s env (dr_dim_type dr) fn c; Ok (fn, c)).
Proof.
  intros Hfn Henv Hc. unfold _gendim.
  rewrite Hfn; cbn [mbind result_bind].
  rewrite Henv; cbn [mbind result_bind].
  by rewrite Hc.
Qed.

Lemma request_raises s name dim n0 d0 ty e :
  lookup_phase s name dim = Ok (n0, d0, false, ty) →
  _gendim s (mkNameRequest n0 ty) (mkDimRequest d0 ty) = Raise e →
  request s name dim = Raise e.
Proof. intros Hlk Hg. rewrite (request_alloc _ _ _ _ _ _ Hlk). by rewrite Hg. Qed.

Lemma validate_floor s env ty fn c :
  c < MAX_DIM → validate s env ty fn c = Raise (ran_out fn).
Proof.
  intros Hc. unfold validate. apply Z.ltb_lt in Hc. by rewrite Hc.
Qed.

(** The candidate of a search is at or below its start. *)
Lemma fresh_dim_search_le s env ty c :
  fresh_dim_of s env (mkDimRequest None ty) = Ok c →
  c ≤ (if bool_decide (ty ≠ VISIBLE)
       then default (-1) (_first_available_dim s) else -1).
Proof.
  unfold fresh_dim_of; cbn [dr_dim dr_dim_type].
  destruct (while_taken _ _ _) as [d|] eqn:Hloop; [|discriminate].
  intros [= <-]. apply while_taken_stops in Hloop as [Hle _].
  destruct (bool_decide (ty ≠ VISIBLE)); [|done].
  by destruct (_first_available_dim s).
Qed.
End gendim_validation.

(** * The allocator's bounds *)

(** C3. An allocating [request] returns a dim that is not below [MAX_DIM],
    whether the dim was given or searched; when the candidate dim is below
    [MAX_DIM] the call raises the "ran out of free dims" error instead. *)
Theorem C3_floor_respected s name dim n0 d0 ty :
  lookup_phase s name dim = Ok (n0, d0, false, ty) →
  (∀ res s', request s name dim = Ok (res, s') →
     ∃ n d, res = (Some n, Some d) ∧ MAX_DIM ≤ d) ∧
  (∀ fn env c,
     fresh_name_of (mkNameRequest n0 ty) (mkDimRequest d0 ty) = Ok fn →
     current_env s = Ok env →
     fresh_dim_of s env (mkDimRequest d0 ty) = Ok c →
     c < MAX_DIM →
     request s name dim = Raise (ran_out fn)).
Proof.
  intros Hlk. split.
  - intros res s' Hreq.
    destruct (request_alloc_inv _ _ _ _ _ _ _ _ Hlk Hreq)
      as (n & d & env & frames & -> & _ & Hg & _).
    apply gendim_ok in Hg as (_ & env' & _ & _ & Hv).
    apply validate_ok in Hv as [Hfloor _]. eauto.
  - intros fn env c Hfn Henv Hc Hlow.
    apply (request_raises _ _ _ _ _ _ _ Hlk).
    rewrite (gendim_validate _ _ _ _ _ _ Hfn Henv Hc).
    by rewrite validate_floor.
Qed.

Lemma C3_floor_respected_witness :
  (∃ n d, (Some "x", Some (-1)) = (Some n, Some d) ∧ MAX_DIM ≤ d) ∧
  request DimStack_init (NameVal (Some "x"))
          (DimReq (mkDimRequest (Some (-26)) GLOBAL)) = Raise (ran_out "x").
Proof.
  split.
  - refine (proj1 (C3_floor_respected DimStack_init
               (NameReq (mkNameRequest (Some "x") LOCAL)) (DimVal None)
               (Some "x") None LOCAL _) _
               (set_frame DimStack_init 0%nat (bind_pair "x" (-1) empty_frame)) _);
      vm_compute; reflexivity.
  - refine (proj2 (C3_floor_respected DimStack_init
               (NameVal (Some "x")) (DimReq (mkDimRequest (Some (-26)) GLOBAL))
               (Some "x") (Some (-26)) GLOBAL _) "x" [0%nat; 0%nat] (-26) _ _ _ _);
      vm_compute; reflexivity.
Defined.




(** * Default names *)

(** C7 does not hold for a dim above zero: the name is built from the
    negated dim, and for dim 3 that is "_pyro_dim_-3", not the prefix
    followed by the absolute value 3. *)
Lemma C7_default_name_counterexample :
  ∃ s', request DimStack_init (NameVal None) (DimReq (mkDimRequest (Some 3) LOCAL))
        = Ok ((Some "_pyro_dim_-3", Some 3), s') ∧
        "_pyro_dim_-3" ≠ "_pyro_dim_" +:+ pretty (Z.abs 3).
Proof. eexists. split; [vm_compute; reflexivity|]. vm_compute. discriminate. Qed.

(** C7, amended. An allocating [request] with no name returns the name
    "_pyro_dim_" followed by the decimal form of the negated dim, which is
    the absolute value of the dim whenever the dim is at or below zero; the
    dim is the one that was given, and equal dims give equal names. *)
Theorem C7_default_name s name dim d0 ty res s' :
  lookup_phase s name dim = Ok (None, d0, false, ty) →
  request s name dim = Ok (res, s') →
  ∃ z, d0 = Some z ∧ res = (Some (default_name z), Some z) ∧
    default_name z = "_pyro_dim_" +:+ pretty (- z) ∧
    (z ≤ 0 → default_name z = "_pyro_dim_" +:+ pretty (Z.abs z)).
Proof.
  intros Hlk Hreq.
  destruct (request_alloc_inv _ _ _ _ _ _ _ _ Hlk Hreq)
    as (n & d & env & frames & -> & _ & Hg & _).
  apply gendim_ok in Hg as (Hfn & env' & _ & Hfd & _).
  unfold fresh_name_of in Hfn. unfold fresh_dim_of in Hfd. simpl in Hfn, Hfd.
  destruct d0 as [z|]; [|done].
  injection Hfn as <-. injection Hfd as <-.
  exists z. repeat split; try done.
  intros Hz. unfold default_name. by rewrite Z.abs_neq.
Qed.

Lemma C7_default_name_witness :
  ∃ z, Some (-13) = Some z ∧
    (Some "_pyro_dim_13", Some (-13)) = (Some (default_name z), Some z) ∧
    default_name z = "_pyro_dim_" +:+ pretty (- z) ∧
    (z ≤ 0 → default_name z = "_pyro_dim_" +:+ pretty (Z.abs z)).
Proof.
  refine (C7_default_name st_x (NameVal None)
            (DimReq (mkDimRequest (Some (-13)) LOCAL)) (Some (-13)) LOCAL
            (Some "_pyro_dim_13", Some (-13))
            (set_frame st_x 0%nat (bind_pair "_pyro_dim_13" (-13) (frame_at st_x 0%nat)))
            _ _); vm_compute; reflexivity.
Defined.

(** * The unset watermark *)



(** * The search for a free dim *)

(** C2 does not hold: the search skips a dim that a frame of the
    environment binds to the very name being allocated.  With "x" bound to
    -1 in the global frame, [_gendim] for the name "x" returns -2; the same
    happens through [request] once [free("x", None)] has removed "x" from
    [name_to_dim] only. *)
Lemma C2_search_counterexample :
  current_env st_x = Ok [0%nat; 0%nat] ∧
  dim_to_name (frame_at st_x 0%nat) !! (-1) = Some "x" ∧
  _gendim st_x (mkNameRequest (Some "x") LOCAL) (mkDimRequest None LOCAL)
    = Ok ("x", -2) ∧
  let st := exec st_x (OpFree 0%nat (Some "x") None) in
  dim_to_name (frame_at st 0%nat) !! (-1) = Some "x" ∧
  ∃ st', request st (NameReq (mkNameRequest (Some "x") LOCAL)) (DimVal None)
         = Ok ((Some "x", Some (-2)), st').
Proof.
  repeat split; try (vm_compute; reflexivity).
  eexists. vm_compute. reflexivity.
Qed.

(** C2, amended. When no dim is given, the candidate starts at the watermark
    ([-1] when it is unset or the policy is VISIBLE) and is decremented
    exactly until no frame of the collision set binds it, to whatever name:
    the search always stops, the dim it returns is bound in no frame of the
    set, and every dim between it and the start is bound in some frame. *)
Theorem C2_search_skips_every_bound_dim s env ty :
  let start := if bool_decide (ty ≠ VISIBLE)
               then default (-1) (_first_available_dim s) else -1 in
  ∃ c, fresh_dim_of s env (mkDimRequest None ty) = Ok c ∧ c ≤ start ∧
    (∀ r, r ∈ env → dim_to_name (frame_at s r) !! c = None) ∧
    (∀ d, c < d ≤ start →
       ∃ r, r ∈ env ∧ is_Some (dim_to_name (frame_at s r) !! d)).
Proof.
  intros start. unfold fresh_dim_of; cbn [dr_dim dr_dim_type].
  set (d0 := match (if bool_decide (ty ≠ VISIBLE)
                    then _first_available_dim s else Some (-1)) with
             | Some d => d | None => -1 end).
  assert (d0 = start) as Hstart.
  { unfold d0, start. destruct (bool_decide (ty ≠ VISIBLE)); [|done].
    by destruct (_first_available_dim s). }
  destruct (search_stops s env d0) as [c Hc]. rewrite Hc.
  apply while_taken_stops in Hc as (Hle & Hfree & Hbetween).
  exists c. rewrite <- Hstart. split; [done|]. split; [done|]. split.
  - by apply in_any_dim_to_name_false.
  - intros d Hd. apply in_any_dim_to_name_true. by apply Hbetween.
Qed.

(** * Frames written by [request] *)

Section frame_effect.
Implicit Types (s : DimStack) (ty : DimType).

Lemma request_lookup_phase s name dim res s' :
  request s name dim = Ok (res, s') →
  ∃ n0 d0 found ty, lookup_phase s name dim = Ok (n0, d0, found, ty).
Proof.
  unfold request, lookup_phase.
  destruct (unpack name dim) as [[[n0 d0] ty]|]; cbn [mbind result_bind]; [|done].
  destruct (current_env s) as [env|]; cbn [mbind result_bind]; [|done].
  destruct (read_env s env n0 d0) as [[n1 d1] found]. eauto.
Qed.

Lemma write_frames_cases s ty frames :
  write_frames s ty = Ok frames →
  (ty ≠ LOCAL → ∃ g, global_frame s = Ok g ∧ frames = [g]) ∧
  (ty = LOCAL → ∃ c, current_frame s = Ok c ∧
     frames = c :: (if keep (frame_at s c) then parents (frame_at s c) else [])).
Proof.
  unfold write_frames. case_bool_decide as Hty.
  - destruct (global_frame s) as [g|]; cbn [mbind result_bind]; [|done].
    intros [= <-]. split; [eauto|done].
  - destruct (current_frame s) as [c|]; cbn [mbind result_bind]; [|done].
    intros [= <-]. split; [done|eauto].
Qed.

Lemma bind_pair_changes n d f :
  dim_to_name f !! d = None → bind_pair n d f ≠ f.
Proof.
  intros Hnone Heq. apply (f_equal (λ f, dim_to_name f !! d)) in Heq.
  simpl in Heq. rewrite lookup_insert_eq, Hnone in Heq. done.
Qed.
End frame_effect.

(** C6. A [request] answered by the lookup changes nothing.  An allocating
    [request] writes the new pair into the global frame alone under GLOBAL
    and VISIBLE, and under LOCAL into the current frame and, when its [keep]
    is set, into each of its [parents]; each of these frames changes, and
    every other frame, the stack and the watermark stay as they were. *)
Theorem C6_frames_written s name dim n0 d0 found ty res s' :
  lookup_phase s name dim = Ok (n0, d0, found, ty) →
  request s name dim = Ok (res, s') →
  if found then s' = s
  else
    ∃ n d frames,
      res = (Some n, Some d) ∧
      write_frames s ty = Ok frames ∧
      (ty ≠ LOCAL → ∃ g, global_frame s = Ok g ∧ frames = [g]) ∧
      (ty = LOCAL → ∃ c, current_frame s = Ok c ∧
         frames = c :: (if keep (frame_at s c)
                        then parents (frame_at s c) else [])) ∧
      (∀ r, r ∈ frames →
         frame_at s' r = bind_pair n d (frame_at s r) ∧
         frame_at s' r ≠ frame_at s r) ∧
      (∀ r, r ∉ frames → store s' !! r = store s !! r) ∧
      _stack s' = _stack s ∧
      _first_available_dim s' = _first_available_dim s ∧
      outermost s' = outermost s.
Proof.
  intros Hlk Hreq. destruct found.
  - rewrite (request_found _ _ _ _ _ _ Hlk) in Hreq. by injection Hreq as _ <-.
  - destruct (request_alloc_inv _ _ _ _ _ _ _ _ Hlk Hreq)
      as (n & d & env & frames & -> & Henv & Hg & Hwf & Hsub
          & Hst & Hfad & Hout & Hin & Hnin).
    apply gendim_ok in Hg as (_ & env' & Henv' & _ & Hv).
    rewrite Henv in Henv'. injection Henv' as <-.
    apply validate_ok in Hv as (_ & Hfree & _).
    pose proof (proj1 (in_any_dim_to_name_false _ _ _) Hfree) as Hnone.
    destruct (write_frames_cases _ _ _ Hwf) as [Hglobal Hlocal].
    exists n, d, frames. do 4 (split; [done|]). split; [|done].
    intros r Hr. split; [by apply Hin|].
    rewrite (Hin r Hr). apply bind_pair_changes, Hnone, Hsub, Hr.
Qed.

Lemma C6_frames_written_witness :
  (exec st_x (OpRequest (NameVal (Some "x")) (DimReq (mkDimRequest None GLOBAL)))
     = st_x) ∧
  ∃ n d frames,
    (Some "y", Some (-2)) = (Some n, Some d) ∧
    write_frames st_nested LOCAL = Ok frames ∧
    (LOCAL ≠ LOCAL → ∃ g, global_frame st_nested = Ok g ∧ frames = [g]) ∧
    (LOCAL = LOCAL → ∃ c, current_frame st_nested = Ok c ∧
       frames = c :: (if keep (frame_at st_nested c)
                      then parents (frame_at st_nested c) else [])) ∧
    (∀ r, r ∈ frames →
       frame_at st_nested_y r = bind_pair n d (frame_at st_nested r) ∧
       frame_at st_nested_y r ≠ frame_at st_nested r) ∧
    (∀ r, r ∉ frames → store st_nested_y !! r = store st_nested !! r) ∧
    _stack st_nested_y = _stack st_nested ∧
    _first_available_dim st_nested_y = _first_available_dim st_nested ∧
    outermost st_nested_y = outermost st_nested.
Proof.
  split.
  - refine (C6_frames_written st_x (NameVal (Some "x"))
              (DimReq (mkDimRequest None GLOBAL)) (Some "x") (Some (-1)) true
              GLOBAL (Some "x", Some (-1)) _ _ _); vm_compute; reflexivity.
  - refine (C6_frames_written st_nested
              (NameReq (mkNameRequest (Some "y") LOCAL)) (DimVal None)
              (Some "y") None false LOCAL (Some "y", Some (-2)) st_nested_y
              _ _); vm_compute; reflexivity.
Defined.

(** * Asking twice *)

Section idempotence.
Implicit Types (s : DimStack) (env frames : list fref).

Lemma frame_at_unwritten s s' r :
  store s' !! r = store s !! r → frame_at s' r = frame_at s r.
Proof. unfold frame_at. by intros ->. Qed.

(** Writing a pair keeps the links of every frame. *)
Lemma written_links s s' frames n d r :
  (∀ r, r ∈ frames → frame_at s' r = bind_pair n d (frame_at s r)) →
  (∀ r, r ∉ frames → store s' !! r = store s !! r) →
  parents (frame_at s' r) = parents (frame_at s r) ∧
  iter_parents (frame_at s' r) = iter_parents (frame_at s r) ∧
  keep (frame_at s' r) = keep (frame_at s r).
Proof.
  intros Hin Hnin. destruct (decide (r ∈ frames)) as [Hr|Hr].
  - by rewrite (Hin r Hr).
  - by rewrite (frame_at_unwritten _ _ _ (Hnin r Hr)).
Qed.

Lemma written_current_env s s' frames n d :
  _stack s' = _stack s →
  (∀ r, r ∈ frames → frame_at s' r = bind_pair n d (frame_at s r)) →
  (∀ r, r ∉ frames → store s' !! r = store s !! r) →
  current_env s' = current_env s.
Proof.
  intros Hst Hin Hnin. unfold current_env, global_frame, current_frame.
  rewrite Hst. destruct (head (_stack s)) as [g|]; [|done].
  destruct (last (_stack s)) as [c|]; [|done]. cbn [mbind result_bind].
  destruct (written_links s s' frames n d c Hin Hnin) as (-> & -> & _). done.
Qed.

Lemma read_written (f : StackFrame) (n : string) (d : Z) :
  read (bind_pair n d f) (Some n) None = (Some n, Some d, true).
Proof. unfold read; simpl. rewrite lookup_insert_eq. done. Qed.

Lemma read_unknown_name (f : StackFrame) (n : string) :
  name_to_dim f !! n = None → read f (Some n) None = (Some n, None, false).
Proof. intros Hnone. unfold read; simpl. rewrite Hnone. done. Qed.

(** Once a name has been written into a frame of the environment that knew
    it nowhere, the read loop finds it with the dim written. *)
Lemma read_env_written s s' env frames n d :
  (∀ r, r ∈ frames → frame_at s' r = bind_pair n d (frame_at s r)) →
  (∀ r, r ∉ frames → store s' !! r = store s !! r) →
  (∀ r, r ∈ env → name_to_dim (frame_at s r) !! n = None) →
  (∃ r, r ∈ env ∧ r ∈ frames) →
  read_env s' env (Some n) None = (Some n, Some d, true).
Proof.
  intros Hin Hnin. induction env as [|r env IH]; intros Hmiss (r0 & Hr0 & Hw).
  { by apply elem_of_nil in Hr0. }
  cbn [read_env]. destruct (decide (r ∈ frames)) as [Hr|Hr].
  - by rewrite (Hin r Hr), read_written.
  - rewrite (frame_at_unwritten _ _ _ (Hnin r Hr)).
    rewrite read_unknown_name
      by (apply Hmiss, elem_of_cons; by left).
    apply IH.
    + intros r' Hr'. apply Hmiss. apply elem_of_cons; by right.
    + exists r0. split; [|done].
      apply elem_of_cons in Hr0 as [->|Hr0]; [done|done].
Qed.

Lemma write_frames_nonempty s ty frames :
  write_frames s ty = Ok frames → ∃ r, r ∈ frames.
Proof.
  intros [Hg Hl]%write_frames_cases. destruct (decide (ty = LOCAL)) as [Hty|Hty].
  - destruct (Hl Hty) as (c & _ & ->). exists c. apply elem_of_cons; by left.
  - destruct (Hg Hty) as (g & _ & ->). exists g. apply elem_of_cons; by left.
Qed.
End idempotence.

(** C5. If [request(NameRequest(name, dim_type), None)] returns a pair, the
    same call made again on the state it left is answered by the lookup in
    the current environment, returns the same pair and changes nothing. *)
Theorem C5_request_idempotent s name ty res s' :
  request s (NameReq (mkNameRequest name ty)) (DimVal None) = Ok (res, s') →
  lookup_phase s' (NameReq (mkNameRequest name ty)) (DimVal None)
    = Ok (res.1, res.2, true, ty) ∧
  request s' (NameReq (mkNameRequest name ty)) (DimVal None) = Ok (res, s').
Proof.
  intros Hreq.
  assert (lookup_phase s' (NameReq (mkNameRequest name ty)) (DimVal None)
          = Ok (res.1, res.2, true, ty)) as Hagain.
  { destruct (request_lookup_phase _ _ _ _ _ Hreq) as (n0 & d0 & found & ty' & Hlk).
    destruct found.
    - rewrite (request_found _ _ _ _ _ _ Hlk) in Hreq.
      injection Hreq as <- <-. simpl.
      pose proof Hlk as (n1 & d1 & env & Hu & _ & _)%lookup_phase_ok.
      simpl in Hu. injection Hu as _ _ <-. exact Hlk.
    - pose proof Hlk as (Hu & env & Henv & Hmiss)%lookup_phase_miss.
      injection Hu as <- <- <-.
      destruct (request_alloc_inv _ _ _ _ _ _ _ _ Hlk Hreq)
        as (n & d & env' & frames & -> & Henv' & Hg & Hwf & Hsub
            & Hst & _ & _ & Hin & Hnin).
      rewrite Henv in Henv'. injection Henv' as <-.
      apply gendim_ok in Hg as (Hfn & _).
      unfold fresh_name_of in Hfn; simpl in Hfn.
      destruct name as [n'|]; [|done]. injection Hfn as ->.
      unfold lookup_phase. cbn [unpack nr_name nr_dim_type mbind result_bind].
      rewrite (written_current_env s s' frames n d Hst Hin Hnin), Henv.
      cbn [mbind result_bind].
      rewrite (read_env_written s s' env frames n d Hin Hnin); [done| |].
      + intros r Hr. destruct (Hmiss r Hr) as [Hn _].
        by apply dict_in_false in Hn.
      + destruct (write_frames_nonempty _ _ _ Hwf) as [r Hr]. eauto. }
  split; [done|]. destruct res as [n d]. by apply request_found in Hagain.
Qed.

Lemma C5_request_idempotent_witness :
  let again := NameReq (mkNameRequest (Some "y") LOCAL) in
  let st := exec st_nested (OpRequest again (DimVal None)) in
  lookup_phase st again (DimVal None) = Ok (Some "y", Some (-2), true, LOCAL) ∧
  request st again (DimVal None) = Ok ((Some "y", Some (-2)), st).
Proof.
  refine (C5_request_idempotent st_nested (Some "y") LOCAL (Some "y", Some (-2))
            (exec st_nested (OpRequest (NameReq (mkNameRequest (Some "y") LOCAL))
                                       (DimVal None))) _).
  vm_compute. reflexivity.
Defined.

(** * The stack *)

Section stack_shape.
Implicit Types (s : DimStack) (o : op).

Lemma request_stack s name dim res s' :
  request s name dim = Ok (res, s') → _stack s' = _stack s.
Proof.
  intros Hreq.
  destruct (request_lookup_phase _ _ _ _ _ Hreq) as (n0 & d0 & found & ty & Hlk).
  destruct found.
  - rewrite (request_found _ _ _ _ _ _ Hlk) in Hreq. by injection Hreq as _ <-.
  - by destruct (request_alloc_inv _ _ _ _ _ _ _ _ Hlk Hreq)
      as (n & d & env & frames & _ & _ & _ & _ & _ & Hst & _).
Qed.

Lemma pop_top s bottom top :
  _stack s = bottom ++ [top] → bottom ≠ [] →
  pop s = Ok (top, set_stack s bottom).
Proof.
  intros Hst Hne. unfold pop. rewrite Hst, last_snoc, removelast_last.
  rewrite length_app; simpl.
  destruct bottom as [|b bottom]; [done|]. simpl.
  replace (1 <? S (length bottom + 1))%nat with true; [done|].
  symmetry. apply Nat.ltb_lt. lia.
Qed.

Lemma pop_short s :
  (length (_stack s) ≤ 1)%nat → pop s = Raise AssertionError.
Proof.
  intros Hlen. unfold pop.
  replace (1 <? length (_stack s))%nat with false; [done|].
  symmetry. apply Nat.ltb_ge. lia.
Qed.

Lemma stack_snoc s :
  (2 ≤ length (_stack s))%nat →
  ∃ bottom top, _stack s = bottom ++ [top] ∧ bottom ≠ [].
Proof.
  intros Hlen. destruct (_stack s) as [|g st] using rev_ind; [simpl in Hlen; lia|].
  exists st, g. split; [done|]. intros ->. simpl in Hlen. lia.
Qed.

(** No operation empties the stack or replaces its first entry. *)
Lemma exec_keeps_global s o :
  (1 ≤ length (_stack s))%nat →
  (1 ≤ length (_stack (exec s o)))%nat ∧
  head (_stack (exec s o)) = head (_stack s).
Proof.
  intros Hlen. unfold exec.
  destruct o as [ps ips k|r n d|r n d|r| |d|name dim]; simpl.
  - done.
  - destruct n as [n|], d as [d|]; done.
  - done.
  - rewrite length_app. split; [lia|].
    destruct (_stack s); [simpl in Hlen; lia|done].
  - destruct (le_lt_dec 2 (length (_stack s))) as [Hbig|Hsmall].
    + destruct (stack_snoc s Hbig) as (bottom & top & Hst & Hne).
      rewrite (pop_top s bottom top Hst Hne). simpl. rewrite Hst.
      destruct bottom as [|b bottom]; [done|]. simpl. split; [lia|done].
    + rewrite pop_short by lia. done.
  - unfold set_first_available_dim.
    destruct (assert_ _); done.
  - destruct (request s name dim) as [[res s']|e] eqn:Hreq; [|done].
    simpl. by rewrite (request_stack _ _ _ _ _ Hreq).
Qed.

Lemma run_keeps_global s ops :
  (1 ≤ length (_stack s))%nat →
  (1 ≤ length (_stack (run s ops)))%nat ∧
  head (_stack (run s ops)) = head (_stack s).
Proof.
  revert s. induction ops as [|o ops IH]; intros s Hlen; [done|].
  cbn [run foldl]. destruct (exec_keeps_global s o Hlen) as [Hlen' Hhead].
  destruct (IH (exec s o) Hlen') as [Hlen'' Hhead'']. fold (run (exec s o) ops).
  split; [done|]. by rewrite Hhead''.
Qed.
End stack_shape.

(** C9. On a stack of at least two frames [pop] removes the top frame and
    returns it; [pop] fails its assertion exactly when the stack has length
    one; and whatever operations are run, the stack keeps at least one frame
    and its first entry, the global frame, stays the same. *)
Theorem C9_pop_guards_global_frame s :
  (1 ≤ length (_stack s))%nat →
  ((2 ≤ length (_stack s))%nat →
     ∃ bottom top, _stack s = bottom ++ [top] ∧
       current_frame s = Ok top ∧ pop s = Ok (top, set_stack s bottom)) ∧
  (pop s = Raise AssertionError ↔ length (_stack s) = 1%nat) ∧
  (∀ ops, (1 ≤ length (_stack (run s ops)))%nat ∧
          global_frame (run s ops) = global_frame s).
Proof.
  intros Hlen. split; [|split].
  - intros Hbig. destruct (stack_snoc s Hbig) as (bottom & top & Hst & Hne).
    exists bottom, top. split; [done|]. split; [|by apply pop_top].
    unfold current_frame. by rewrite Hst, last_snoc.
  - split.
    + intros Hpop. destruct (le_lt_dec 2 (length (_stack s))) as [Hbig|Hsmall]; [|lia].
      destruct (stack_snoc s Hbig) as (bottom & top & Hst & Hne).
      by rewrite (pop_top s bottom top Hst Hne) in Hpop.
    + intros Hone. apply pop_short. lia.
  - intros ops. destruct (run_keeps_global s ops Hlen) as [Hlen' Hhead].
    split; [done|]. unfold global_frame. by rewrite Hhead.
Qed.

Lemma C9_pop_guards_global_frame_witness :
  (∃ bottom top, _stack st_nested = bottom ++ [top] ∧
     current_frame st_nested = Ok top ∧
     pop st_nested = Ok (top, set_stack st_nested bottom)) ∧
  (pop DimStack_init = Raise AssertionError ↔ length (_stack DimStack_init) = 1%nat) ∧
  (1 ≤ length (_stack (run st_nested [OpPop; OpPop; OpPop])))%nat ∧
  global_frame (run st_nested [OpPop; OpPop; OpPop]) = global_frame st_nested.
Proof.
  split; [|split].
  - apply (proj1 (C9_pop_guards_global_frame st_nested ltac:(vm_compute; lia))).
    vm_compute; lia.
  - apply (proj1 (proj2 (C9_pop_guards_global_frame DimStack_init
                           ltac:(vm_compute; lia)))).
  - apply (proj2 (proj2 (C9_pop_guards_global_frame st_nested
                           ltac:(vm_compute; lia)))).
Defined.

(** C10 does not hold for a frame that the environment holds anyway: after
    pushing the global frame itself and popping it, that frame and its
    binding of "x" are still part of [current_env]. *)
Lemma C10_push_pop_counterexample :
  ∃ s1 s2,
    push st_x 0%nat = Ok ((), s1) ∧ current_frame s1 = Ok 0%nat ∧
    pop s1 = Ok (0%nat, s2) ∧
    in_current_env s2 0%nat ∧
    name_to_dim (frame_at s2 0%nat) !! "x" = Some (-1).
Proof.
  do 2 eexists. split; [reflexivity|]. split; [reflexivity|].
  split; [vm_compute; reflexivity|]. split.
  - exists [0%nat; 0%nat]. split; [vm_compute; reflexivity|].
    apply elem_of_cons; by left.
  - vm_compute. reflexivity.
Qed.

(** C10, amended. On a stack that holds the global frame, after [push(f)]
    the current frame is [f], [pop()] returns [f] and leaves the state that
    was there before the [push]: the current frame and the environment are
    those from before, so [f] belongs to [current_env] afterwards only if it
    did before the [push]. *)
Theorem C10_push_pop_round_trip s f :
  (1 ≤ length (_stack s))%nat →
  ∃ s1, push s f = Ok ((), s1) ∧ current_frame s1 = Ok f ∧
    ∃ s2, pop s1 = Ok (f, s2) ∧ s2 = s ∧
      current_frame s2 = current_frame s ∧
      current_env s2 = current_env s ∧
      (in_current_env s2 f ↔ in_current_env s f).
Proof.
  intros Hlen. eexists. split; [reflexivity|]. split.
  { unfold current_frame; simpl. by rewrite last_snoc. }
  exists s. split; [|done].
  rewrite (pop_top _ (_stack s) f); simpl; [by destruct s|done|].
  intros Hnil. rewrite Hnil in Hlen. simpl in Hlen. lia.
Qed.

Lemma C10_push_pop_round_trip_witness :
  ∃ s1, push st_nested 7%nat = Ok ((), s1) ∧ current_frame s1 = Ok 7%nat ∧
    ∃ s2, pop s1 = Ok (7%nat, s2) ∧ s2 = st_nested ∧
      current_frame s2 = current_frame st_nested ∧
      current_env s2 = current_env st_nested ∧
      (in_current_env s2 7%nat ↔ in_current_env st_nested 7%nat).
Proof.
  apply (C10_push_pop_round_trip st_nested 7%nat). vm_compute. lia.
Defined.

(** * Inverse dictionaries *)

Section bijection.
Implicit Types (s : DimStack) (f : StackFrame) (o : op).

Lemma frame_bij_empty ps ips k : frame_bij (mkStackFrame ∅ ∅ ps ips k).
Proof. intros n d; simpl. by rewrite !lookup_empty. Qed.

Lemma compatibleb_true f name dim :
  compatibleb f name dim = true → compatible f name dim.
Proof.
  unfold compatibleb, compatible. intros [Hn Hd]%andb_true_iff. split.
  - intros n d' -> Hb. rewrite Hb in Hn. by apply bool_decide_eq_true in Hn.
  - intros d n' -> Hb. rewrite Hb in Hd. by apply bool_decide_eq_true in Hd.
Qed.

(** [write] keeps the dictionaries inverse exactly when neither argument
    had another partner. *)
Lemma bind_pair_bij f n d :
  frame_bij f →
  (frame_bij (bind_pair n d f) ↔ compatible f (Some n) (Some d)).
Proof.
  intros Hf. unfold frame_bij, compatible, bind_pair; simpl. split.
  - intros Hw. split.
    + intros n1 d' [= <-] Hb. destruct (decide (d' = d)) as [->|Hne]; [done|].
      apply Hf in Hb. specialize (Hw n d').
      rewrite lookup_insert_eq, lookup_insert_ne in Hw by done.
      apply Hw in Hb. by injection Hb as ->.
    + intros d1 n' [= <-] Hb. destruct (decide (n' = n)) as [->|Hne]; [done|].
      apply Hf in Hb. specialize (Hw n' d).
      rewrite lookup_insert_eq, lookup_insert_ne in Hw by done.
      apply Hw in Hb. by injection Hb as ->.
  - intros [Hn Hd] n1 d1.
    destruct (decide (n = n1)) as [<-|Hn1], (decide (d = d1)) as [<-|Hd1].
    + by rewrite !lookup_insert_eq.
    + rewrite lookup_insert_eq, lookup_insert_ne by done. split.
      * by intros [= ->].
      * intros Hb%Hf. by specialize (Hn n d1 eq_refl Hb) as [= ->].
    + rewrite lookup_insert_eq, lookup_insert_ne by done. split.
      * intros Hb%Hf. by specialize (Hd d n1 eq_refl Hb) as [= ->].
      * by intros [= ->].
    + rewrite !lookup_insert_ne by done. apply Hf.
Qed.

(** [free] keeps the dictionaries inverse exactly when neither argument
    had another partner. *)
Lemma free_bij f name dim :
  frame_bij f →
  (frame_bij (free f name dim).2 ↔ compatible f name dim).
Proof.
  intros Hf. unfold frame_bij, compatible, free; simpl. split.
  - intros Hw. split.
    + intros n d' -> Hb. simpl in Hw.
      destruct dim as [d|]; simpl in Hw.
      * destruct (decide (d' = d)) as [->|Hne]; [done|].
        apply Hf in Hb. specialize (Hw n d').
        rewrite lookup_delete_eq, lookup_delete_ne in Hw by done.
        by apply Hw in Hb.
      * apply Hf in Hb. specialize (Hw n d').
        rewrite lookup_delete_eq in Hw. by apply Hw in Hb.
    + intros d n' -> Hb. simpl in Hw.
      destruct name as [n|]; simpl in Hw.
      * destruct (decide (n' = n)) as [->|Hne]; [done|].
        apply Hf in Hb. specialize (Hw n' d).
        rewrite lookup_delete_eq, lookup_delete_ne in Hw by done.
        by apply Hw in Hb.
      * apply Hf in Hb. specialize (Hw n' d).
        rewrite lookup_delete_eq in Hw. by apply Hw in Hb.
  - intros [Hn Hd] n1 d1.
    destruct name as [n|], dim as [d|]; simpl.
    + destruct (decide (n = n1)) as [<-|Hn1], (decide (d = d1)) as [<-|Hd1].
      * by rewrite !lookup_delete_eq.
      * rewrite lookup_delete_eq, lookup_delete_ne by done. split; [done|].
        intros Hb%Hf. by specialize (Hn n d1 eq_refl Hb) as [= ->].
      * rewrite lookup_delete_eq, lookup_delete_ne by done. split; [|done].
        intros Hb%Hf. by specialize (Hd d n1 eq_refl Hb) as [= ->].
      * rewrite !lookup_delete_ne by done. apply Hf.
    + destruct (decide (n = n1)) as [<-|Hn1].
      * rewrite lookup_delete_eq. split; [done|].
        intros Hb%Hf. by specialize (Hn n d1 eq_refl Hb).
      * rewrite lookup_delete_ne by done. apply Hf.
    + destruct (decide (d = d1)) as [<-|Hd1].
      * rewrite lookup_delete_eq. split; [|done].
        intros Hb%Hf. by specialize (Hd d n1 eq_refl Hb).
      * rewrite lookup_delete_ne by done. apply Hf.
    + apply Hf.
Qed.

Lemma all_bij_init : all_bij DimStack_init.
Proof.
  intros r. unfold frame_at, DimStack_init; simpl.
  destruct (decide (r = 0%nat)) as [->|Hne].
  - rewrite lookup_singleton_eq. apply frame_bij_empty.
  - rewrite lookup_singleton_ne by done. apply frame_bij_empty.
Qed.

Lemma all_bij_same_store s s' :
  store s' = store s → all_bij s → all_bij s'.
Proof. intros Hst Hs r. unfold frame_at. rewrite Hst. apply Hs. Qed.

Lemma all_bij_set_frame s r f :
  all_bij s → frame_bij f → all_bij (set_frame s r f).
Proof.
  intros Hs Hf r'. rewrite frame_at_set_frame.
  destruct (decide (r = r')); [done|apply Hs].
Qed.

(** An allocating [request] keeps the dictionaries inverse when the name
    it writes is new to the frames it writes. *)
Lemma request_keeps_bij s name dim res s' :
  all_bij s → step_safe s (OpRequest name dim) →
  request s name dim = Ok (res, s') → all_bij s'.
Proof.
  intros Hs Hsafe Hreq.
  destruct (request_lookup_phase _ _ _ _ _ Hreq) as (n0 & d0 & found & ty & Hlk).
  destruct found.
  { rewrite (request_found _ _ _ _ _ _ Hlk) in Hreq. by injection Hreq as _ <-. }
  destruct (request_alloc_inv _ _ _ _ _ _ _ _ Hlk Hreq)
    as (n & d & env & frames & -> & Henv & Hg & Hwf & Hsub
        & _ & _ & _ & Hin & Hnin).
  pose proof Hlk as (_ & env0 & Henv0 & Hmiss)%lookup_phase_miss.
  rewrite Henv in Henv0. injection Henv0 as <-.
  apply gendim_ok in Hg as (Hfn & env' & Henv' & Hfd & Hv).
  rewrite Henv in Henv'. injection Henv' as <-.
  apply validate_ok in Hv as (_ & Hfree & _).
  pose proof (proj1 (in_any_dim_to_name_false _ _ _) Hfree) as Hdnone.
  intros r. destruct (decide (r ∈ frames)) as [Hr|Hr];
    [|rewrite (frame_at_unwritten _ _ _ (Hnin r Hr)); apply Hs].
  rewrite (Hin r Hr). apply bind_pair_bij; [apply Hs|].
  assert (name_to_dim (frame_at s r) !! n = None) as Hnnone.
  { unfold fresh_name_of in Hfn; simpl in Hfn. destruct n0 as [n0|].
    - injection Hfn as ->. destruct (Hmiss r (Hsub r Hr)) as [Hn _].
      by apply dict_in_false in Hn.
    - destruct d0 as [z|]; [|done]. injection Hfn as <-.
      by apply (Hsafe z ty frames r). }
  split.
  - intros n1 d' [= <-] Hb. by rewrite Hnnone in Hb.
  - intros d1 n' [= <-] Hb. by rewrite (Hdnone r (Hsub r Hr)) in Hb.
Qed.

Lemma exec_keeps_bij s o :
  all_bij s → step_safe s o → all_bij (exec s o).
Proof.
  intros Hs Hsafe. unfold exec.
  destruct o as [ps ips k|r n d|r n d|r| |d|name dim]; simpl.
  - apply all_bij_set_frame; [done|apply frame_bij_empty].
  - destruct n as [n|], d as [d|]; try done.
    rewrite write_at_some. apply all_bij_set_frame; [done|].
    by apply bind_pair_bij.
  - apply all_bij_set_frame; [done|].
    by apply (free_bij (frame_at s r) n d).
  - done.
  - unfold pop. destruct (assert_ _); simpl; [|done].
    destruct (last (_stack s)); done.
  - unfold set_first_available_dim. destruct (assert_ _); done.
  - destruct (request s name dim) as [[res s']|e] eqn:Hreq; [|done].
    simpl. by eapply request_keeps_bij.
Qed.

Lemma run_safe_take s ops k : run_safe s ops → run_safe s (take k ops).
Proof.
  revert s k. induction ops as [|o ops IH]; intros s [|k]; simpl; try done.
  intros [Ho Hrest]. split; [done|]. by apply IH.
Qed.

Lemma run_keeps_bij s ops :
  all_bij s → run_safe s ops → all_bij (run s ops).
Proof.
  revert s. induction ops as [|o ops IH]; intros s Hs; simpl; [done|].
  intros [Ho Hrest]. apply IH; [|done]. by apply exec_keeps_bij.
Qed.
End bijection.

(** C1 does not hold: [write] leaves the old partner behind.  After
    [write("x", -1)] and [write("x", -2)] on the global frame,
    [dim_to_name[-1]] is still "x" while [name_to_dim["x"]] is -2.  The same
    happens with [request] alone: once "_pyro_dim_3" has been given dim -1,
    a request for dim -3 with no name writes that name again. *)
Lemma C1_bijection_counterexample :
  all_bij DimStack_init ∧
  ¬ frame_bij (frame_at (run DimStack_init
                  [OpWrite 0%nat (Some "x") (Some (-1));
                   OpWrite 0%nat (Some "x") (Some (-2))]) 0%nat) ∧
  ¬ frame_bij (frame_at (run DimStack_init
                  [OpRequest (NameReq (mkNameRequest (Some "_pyro_dim_3") LOCAL))
                             (DimVal None);
                   OpRequest (NameVal None)
                             (DimReq (mkDimRequest (Some (-3)) LOCAL))]) 0%nat).
Proof.
  split; [apply all_bij_init|]. split.
  - intros Hbij. specialize (Hbij "x" (-1)). vm_compute in Hbij.
    destruct Hbij as [_ Hback]. specialize (Hback eq_refl). discriminate Hback.
  - intros Hbij. specialize (Hbij "_pyro_dim_3" (-1)). vm_compute in Hbij.
    destruct Hbij as [_ Hback]. specialize (Hback eq_refl). discriminate Hback.
Qed.

(** C1, amended. [write(name, dim)] binds the pair in both dictionaries, and
    it keeps them inverse exactly when neither [name] nor [dim] had another
    partner in the frame; the same holds for [free].  Along every sequence
    of operations whose [write] and [free] steps meet that condition and
    whose [request] steps do not allocate under a default name already known
    to a frame they write, the two dictionaries of every frame are inverse
    at every point; [push], [pop], [set_first_available_dim], new frames and
    requests that carry their name need no condition. *)
Theorem C1_bijection_kept_by_compatible_steps :
  (∀ f n d,
     name_to_dim (bind_pair n d f) !! n = Some d ∧
     dim_to_name (bind_pair n d f) !! d = Some n) ∧
  (∀ f n d, frame_bij f →
     (frame_bij (bind_pair n d f) ↔ compatible f (Some n) (Some d))) ∧
  (∀ f name dim, frame_bij f →
     (frame_bij (free f name dim).2 ↔ compatible f name dim)) ∧
  (∀ s ops, all_bij s → run_safe s ops →
     ∀ k r, frame_bij (frame_at (run s (take k ops)) r)).
Proof.
  split; [|split; [|split]].
  - intros f n d; simpl. by rewrite !lookup_insert_eq.
  - apply bind_pair_bij.
  - apply free_bij.
  - intros s ops Hs Hsafe k.
    apply run_keeps_bij; [done|]. by apply run_safe_take.
Qed.

Lemma C1_bijection_kept_by_compatible_steps_witness :
  frame_bij (frame_at (run DimStack_init (take 5 scope_ops)) 0%nat) ∧
  frame_bij (frame_at (run DimStack_init (take 6 scope_ops)) 1%nat).
Proof.
  assert (run_safe DimStack_init scope_ops) as Hsafe; [|split;
    apply (proj2 (proj2 (proj2 C1_bijection_kept_by_compatible_steps))
             DimStack_init scope_ops all_bij_init Hsafe)].
  unfold scope_ops. cbn [run_safe step_safe].
  split.
  { intros d ty frames r Hlk. vm_compute in Hlk. discriminate Hlk. }
  do 2 (split; [exact I|]). split.
  { intros d ty frames r Hlk. vm_compute in Hlk. discriminate Hlk. }
  split.
  { intros d ty frames r Hlk Hwf Hr. vm_compute in Hlk.
    injection Hlk as <- <-. vm_compute in Hwf. injection Hwf as <-.
    apply list_elem_of_singleton in Hr as ->. vm_compute. reflexivity. }
  split; [apply compatibleb_true; vm_compute; reflexivity|].
  split; [apply compatibleb_true; vm_compute; reflexivity|].
  split; exact I.
Defined.


(** * Further properties of the frames *)

(** X1. [request] never returns [None]: whenever it returns, both the name
    and the dim of the pair are present, whether the pair was found by the
    read loop or newly allocated. *)
Theorem X1_request_returns_both s name dim n d s' :
  request s name dim = Ok ((n, d), s') → is_Some n ∧ is_Some d.
Proof.
  intros Hreq.
  destruct (request_lookup_phase _ _ _ _ _ Hreq) as (n0 & d0 & found & ty & Hlk).
  destruct found.
  - rewrite (request_found _ _ _ _ _ _ Hlk) in Hreq. injection Hreq as <- <- _.
    apply lookup_phase_ok in Hlk as (n1 & d1 & env & _ & _ & Hrd).
    by eapply read_env_hit.
  - destruct (request_alloc_inv _ _ _ _ _ _ _ _ Hlk Hreq)
      as (n1 & d1 & env & frames & [= -> ->] & _).
    split; by eexists.
Qed.

Lemma X1_request_returns_both_witness :
  is_Some (Some "x") ∧ is_Some (Some (-1)).
Proof.
  refine (X1_request_returns_both st_x (NameVal None)
            (DimReq (mkDimRequest (Some (-1)) LOCAL))
            (Some "x") (Some (-1)) st_x _).
  vm_compute. reflexivity.
Defined.

(** X2. [write] with both arguments present never raises, and afterwards
    [read] finds the pair from the name alone, from the dim alone and from
    both; the links of the frame are untouched.  [write] with a missing
    argument fails its assertion. *)
Theorem X2_write_then_read f n d :
  (∃ f', write f (Some n) (Some d) = Ok f' ∧
     read f' (Some n) None = (Some n, Some d, true) ∧
     read f' None (Some d) = (Some n, Some d, true) ∧
     read f' (Some n) (Some d) = (Some n, Some d, true) ∧
     parents f' = parents f ∧ iter_parents f' = iter_parents f ∧
     keep f' = keep f) ∧
  (∀ name dim, name = None ∨ dim = None →
     write f name dim = Raise AssertionError).
Proof.
  split.
  - exists (bind_pair n d f). split; [done|].
    unfold read, bind_pair; simpl. rewrite !lookup_insert_eq. simpl.
    rewrite ?bool_decide_eq_true_2 by (rewrite lookup_insert_eq; by eexists).
    done.
  - intros name dim [-> | ->]; [done|]. by destruct name.
Qed.

(** X3. On a frame that knows neither the name nor the dim, [write]
    followed by [free] of the same pair gives back the frame as it was, and
    [free] returns the pair. *)
Theorem X3_write_free_round_trip f n d :
  name_to_dim f !! n = None →
  dim_to_name f !! d = None →
  ∃ f', write f (Some n) (Some d) = Ok f' ∧
        free f' (Some n) (Some d) = ((Some n, Some d), f).
Proof.
  intros Hn Hd. exists (bind_pair n d f). split; [done|].
  unfold free, bind_pair; simpl.
  rewrite !delete_insert_id by done. by destruct f.
Qed.

Lemma X3_write_free_round_trip_witness :
  ∃ f', write (frame_at st_x 0%nat) (Some "y") (Some (-2)) = Ok f' ∧
        free f' (Some "y") (Some (-2)) = ((Some "y", Some (-2)), frame_at st_x 0%nat).
Proof.
  apply (X3_write_free_round_trip (frame_at st_x 0%nat) "y" (-2));
    vm_compute; reflexivity.
Defined.

(** X4. [free] never raises and returns its arguments.  Afterwards [read]
    of the same arguments finds nothing, every other name and dim is bound
    as before, and a frame that knew neither argument is unchanged. *)
Theorem X4_free_forgets f name dim :
  (free f name dim).1 = (name, dim) ∧
  read (free f name dim).2 name dim = (name, dim, false) ∧
  (∀ n, name ≠ Some n →
     name_to_dim (free f name dim).2 !! n = name_to_dim f !! n) ∧
  (∀ d, dim ≠ Some d →
     dim_to_name (free f name dim).2 !! d = dim_to_name f !! d) ∧
  (dict_in name (name_to_dim f) = false →
   dict_in dim (dim_to_name f) = false →
   (free f name dim).2 = f).
Proof.
  split; [done|]. split; [|split; [|split]].
  - unfold read, free; simpl.
    destruct name as [n|], dim as [d|]; simpl;
      rewrite ?lookup_delete_eq; simpl;
      rewrite ?bool_decide_eq_false_2
        by (rewrite lookup_delete_eq; by intros [? [=]]);
      done.
  - intros n Hne. unfold free; simpl. destruct name as [n'|]; simpl; [|done].
    apply lookup_delete_ne. by intros ->.
  - intros d Hne. unfold free; simpl. destruct dim as [d'|]; simpl; [|done].
    apply lookup_delete_ne. by intros ->.
  - intros Hn Hd. unfold free; simpl.
    destruct name as [n|], dim as [d|]; simpl;
      rewrite ?delete_id by (by apply dict_in_false);
      by destruct f.
Qed.

(** * The watermark *)

Section watermark.
Implicit Types (s : DimStack) (o : op).

Lemma request_watermark s name dim res s' :
  request s name dim = Ok (res, s') →
  _first_available_dim s' = _first_available_dim s.
Proof.
  intros Hreq.
  destruct (request_lookup_phase _ _ _ _ _ Hreq) as (n0 & d0 & found & ty & Hlk).
  destruct found.
  - rewrite (request_found _ _ _ _ _ _ Hlk) in Hreq. by injection Hreq as _ <-.
  - by destruct (request_alloc_inv _ _ _ _ _ _ _ _ Hlk Hreq)
      as (n & d & env & frames & _ & _ & _ & _ & _ & _ & Hfad & _).
Qed.

Lemma set_first_available_dim_accepts s dim :
  (dim = None ∨ ∃ w, dim = Some w ∧ MAX_DIM < w < 0) →
  set_first_available_dim s dim =
    Ok (_first_available_dim s,
        mkDimStack (store s) (_stack s) dim (outermost s)).
Proof.
  unfold set_first_available_dim. intros [->|(w & -> & Hlo & Hhi)]; [done|].
  apply Z.ltb_lt in Hlo, Hhi. by rewrite Hlo, Hhi.
Qed.

Lemma set_first_available_dim_ok s dim old s1 :
  set_first_available_dim s dim = Ok (old, s1) →
  (dim = None ∨ ∃ w, dim = Some w ∧ MAX_DIM < w < 0) ∧
  old = _first_available_dim s ∧
  s1 = mkDimStack (store s) (_stack s) dim (outermost s).
Proof.
  unfold set_first_available_dim. destruct dim as [w|]; simpl.
  - destruct (MAX_DIM <? w) eqn:Hlo; [|done].
    destruct (w <? 0) eqn:Hhi; [|done]. simpl. intros [= <- <-].
    apply Z.ltb_lt in Hlo, Hhi. split; [|done]. right. by exists w.
  - intros [= <- <-]. split; [by left|done].
Qed.

Lemma exec_keeps_watermark_ok s o :
  watermark_ok s → watermark_ok (exec s o).
Proof.
  intros Hs. unfold exec.
  destruct o as [ps ips k|r n d|r n d|r| |d|name dim]; simpl; try done.
  - destruct n as [n|], d as [d|]; done.
  - unfold pop. destruct (assert_ _); simpl; [|done].
    destruct (last (_stack s)); done.
  - destruct (set_first_available_dim s d) as [[old s1]|] eqn:Hset; [|done].
    apply set_first_available_dim_ok in Hset as (Hd & _ & ->).
    simpl. unfold watermark_ok; simpl.
    destruct Hd as [->|(w & -> & Hw)]; done.
  - destruct (request s name dim) as [[res s']|e] eqn:Hreq; [|done].
    simpl. unfold watermark_ok. by rewrite (request_watermark _ _ _ _ _ Hreq).
Qed.

Lemma search_start_negative s ty :
  watermark_ok s → search_start s ty ≤ -1.
Proof.
  unfold watermark_ok, search_start. intros Hs.
  destruct (bool_decide (ty ≠ VISIBLE)); [|done].
  destruct (_first_available_dim s) as [w|]; simpl; [lia|done].
Qed.
End watermark.

(** X5. [set_first_available_dim] accepts exactly [None] and the dims
    strictly between [MAX_DIM] and 0, and fails its assertion on any other
    value.  When it accepts, it returns the watermark it replaces and changes
    nothing else; from a state whose watermark is itself acceptable, a second
    call with the returned value restores the state it started from. *)
Theorem X5_watermark_override s dim :
  ((∃ old s1, set_first_available_dim s dim = Ok (old, s1)) ↔
     (dim = None ∨ ∃ w, dim = Some w ∧ MAX_DIM < w < 0)) ∧
  (∀ e, set_first_available_dim s dim = Raise e → e = AssertionError) ∧
  (∀ old s1, set_first_available_dim s dim = Ok (old, s1) →
     old = _first_available_dim s ∧
     _first_available_dim s1 = dim ∧
     store s1 = store s ∧ _stack s1 = _stack s ∧ outermost s1 = outermost s ∧
     (watermark_ok s → set_first_available_dim s1 old = Ok (dim, s))).
Proof.
  split; [|split].
  - split.
    + intros (old & s1 & Hset).
      by destruct (set_first_available_dim_ok _ _ _ _ Hset) as [Hd _].
    + intros Hd. rewrite set_first_available_dim_accepts by done. eauto.
  - unfold set_first_available_dim. destruct (assert_ _) as [[]|e'] eqn:Ha; [done|].
    simpl. intros e [= <-]. unfold assert_ in Ha.
    destruct dim as [w|]; [|done].
    destruct ((MAX_DIM <? w) && (w <? 0)); [done|]. by injection Ha as <-.
  - intros old s1 Hset.
    apply set_first_available_dim_ok in Hset as (_ & -> & ->). simpl.
    do 5 (split; [done|]). intros Hs.
    rewrite set_first_available_dim_accepts; simpl; [by destruct s|].
    unfold watermark_ok in Hs.
    destruct (_first_available_dim s) as [w|]; [right; by exists w|by left].
Qed.

(** X6. Through every sequence of operations the watermark stays unset or
    strictly between [MAX_DIM] and 0, provided it was so at the start, as it
    is in a new [DimStack]. *)
Theorem X6_watermark_stays_in_range s ops :
  watermark_ok s → watermark_ok (run s ops).
Proof.
  revert s. induction ops as [|o ops IH]; intros s Hs; [done|].
  cbn [run foldl]. apply IH. by apply exec_keeps_watermark_ok.
Qed.

Lemma X6_watermark_stays_in_range_witness :
  watermark_ok DimStack_init ∧
  watermark_ok (run DimStack_init
                  (OpSetFirstAvailableDim (Some (-7)) ::
                   OpSetFirstAvailableDim (Some 3) :: scope_ops)).
Proof.
  assert (watermark_ok DimStack_init) as Hinit.
  { unfold watermark_ok, MAX_DIM; simpl. lia. }
  split; [exact Hinit|].
  exact (X6_watermark_stays_in_range DimStack_init _ Hinit).
Defined.

(** X7. With the watermark in range, a dim that an allocating [request]
    found by search (no dim was given) is negative: it lies between
    [MAX_DIM] and the start of the search, which is the watermark, or -1
    when the watermark is unset or the policy is VISIBLE. *)
Theorem X7_searched_dim_range s name dim n0 ty n d s' :
  watermark_ok s →
  lookup_phase s name dim = Ok (n0, None, false, ty) →
  request s name dim = Ok ((n, d), s') →
  ∃ z, d = Some z ∧ MAX_DIM ≤ z ≤ search_start s ty ∧ z ≤ -1.
Proof.
  intros Hs Hlk Hreq.
  destruct (request_alloc_inv _ _ _ _ _ _ _ _ Hlk Hreq)
    as (n1 & z & env & frames & [= -> ->] & _ & Hg & _).
  apply gendim_ok in Hg as (_ & env' & _ & Hfd & Hv).
  apply validate_ok in Hv as (Hfloor & _).
  apply fresh_dim_search_le in Hfd. fold (search_start s ty) in Hfd.
  pose proof (search_start_negative s ty Hs).
  exists z. split; [done|]. lia.
Qed.

Lemma X7_searched_dim_range_witness :
  ∃ z, Some (-3) = Some z ∧ MAX_DIM ≤ z ≤ search_start st_watermark GLOBAL ∧ z ≤ -1.
Proof.
  refine (X7_searched_dim_range st_watermark
            (NameVal (Some "a")) (DimReq (mkDimRequest None GLOBAL))
            (Some "a") GLOBAL (Some "a") (Some (-3))
            (set_frame st_watermark 0%nat (bind_pair "a" (-3) empty_frame))
            _ _ _).
  - unfold watermark_ok, MAX_DIM; simpl. lia.
  - vm_compute. reflexivity.
  - vm_compute. reflexivity.
Defined.

(** * Lookup order and collisions *)

Section lookup_order.
Implicit Types (s : DimStack) (env frames : list fref).

Lemma global_then_current s g :
  global_frame s = Ok g →
  ∃ c, current_frame s = Ok c ∧
       current_env s =
         Ok ([g; c] ++ iter_parents (frame_at s c) ++ parents (frame_at s c)).
Proof.
  unfold current_env, global_frame, current_frame.
  destruct (_stack s) as [|g0 st] eqn:Hst; [done|]. simpl. intros [= ->].
  destruct (last (g :: st)) as [c|] eqn:Hlast.
  - exists c. by split.
  - by apply last_None in Hlast.
Qed.

Lemma nonempty_stack_env s :
  (1 ≤ length (_stack s))%nat → ∃ env, current_env s = Ok env.
Proof.
  intros Hlen. destruct (_stack s) as [|g st] eqn:Hst; [simpl in Hlen; lia|].
  destruct (global_then_current s g) as (c & _ & Henv); [|eauto].
  unfold global_frame. by rewrite Hst.
Qed.

Lemma read_env_nothing s env : read_env s env None None = (None, None, false).
Proof. induction env as [|r env IH]; [done|]. cbn [read_env]. exact IH. Qed.

Lemma read_env_ext s s' env name dim :
  (∀ r, r ∈ env → frame_at s' r = frame_at s r) →
  read_env s' env name dim = read_env s env name dim.
Proof.
  revert name dim. induction env as [|r env IH]; intros name dim Hsame; [done|].
  cbn [read_env]. rewrite (Hsame r) by (apply elem_of_cons; by left).
  destruct (read (frame_at s r) name dim) as [[n1 d1] [|]]; [done|].
  apply IH. intros r' Hr'. apply Hsame. apply elem_of_cons; by right.
Qed.

Lemma read_known_name (f : StackFrame) (n : string) (d : Z) :
  name_to_dim f !! n = Some d → read f (Some n) None = (Some n, Some d, true).
Proof.
  intros Hb. unfold read; simpl. rewrite Hb. simpl.
  rewrite ?bool_decide_eq_true_2 by (rewrite Hb; by eexists). done.
Qed.

Lemma read_known_dim (f : StackFrame) (n : string) (d : Z) :
  dim_to_name f !! d = Some n → read f None (Some d) = (Some n, Some d, true).
Proof.
  intros Hb. unfold read; simpl. rewrite Hb. simpl.
  rewrite ?bool_decide_eq_true_2 by (rewrite Hb; by eexists). done.
Qed.

Lemma read_unknown_dim (f : StackFrame) (d : Z) :
  dim_to_name f !! d = None → read f None (Some d) = (None, Some d, false).
Proof.
  intros Hb. unfold read; simpl. rewrite Hb. simpl.
  rewrite ?bool_decide_eq_false_2 by (rewrite Hb; by intros [? [=]]). done.
Qed.

(** An allocating [request] whose candidate passes the three tests returns
    the candidate pair. *)
Lemma request_succeeds s name dim n0 d0 ty fn env c :
  lookup_phase s name dim = Ok (n0, d0, false, ty) →
  fresh_name_of (mkNameRequest n0 ty) (mkDimRequest d0 ty) = Ok fn →
  current_env s = Ok env →
  fresh_dim_of s env (mkDimRequest d0 ty) = Ok c →
  validate s env ty fn c = Ok () →
  ∃ s', request s name dim = Ok ((Some fn, Some c), s').
Proof.
  intros Hlk Hfn Henv Hc Hv. rewrite (request_alloc _ _ _ _ _ _ Hlk).
  rewrite (gendim_validate _ _ _ _ _ _ Hfn Henv Hc). cbn [dr_dim_type].
  rewrite Hv. cbn [mbind result_bind].
  destruct (write_frames_env s env ty Henv) as (frames & -> & _).
  cbn [mbind result_bind].
  destruct (write_all_spec s frames fn c) as (s' & -> & _).
  cbn [mbind result_bind]. eauto.
Qed.

(** In the state an allocation leaves, a frame of the environment binds a
    dim either as before, or it is the new dim bound to the new name. *)
Lemma dim_after_allocation s s' env frames n d r d' m :
  (∀ r, r ∈ frames → frame_at s' r = bind_pair n d (frame_at s r)) →
  (∀ r, r ∉ frames → store s' !! r = store s !! r) →
  (∀ r, r ∈ env → dim_to_name (frame_at s r) !! d = None) →
  r ∈ env →
  dim_to_name (frame_at s' r) !! d' = Some m →
  (d' = d ∧ m = n) ∨ (d' ≠ d ∧ dim_to_name (frame_at s r) !! d' = Some m).
Proof.
  intros Hin Hnin Hfree Hr Hb. destruct (decide (r ∈ frames)) as [Hw|Hw].
  - rewrite (Hin r Hw) in Hb. simpl in Hb.
    destruct (decide (d' = d)) as [->|Hne].
    + rewrite lookup_insert_eq in Hb. injection Hb as <-. by left.
    + rewrite lookup_insert_ne in Hb by done. by right.
  - rewrite (frame_at_unwritten _ _ _ (Hnin r Hw)) in Hb. right.
    split; [|done]. intros ->. by rewrite (Hfree r Hr) in Hb.
Qed.
End lookup_order.

(** X8. [request] keeps the current environment free of collisions: if no
    dim has two different names across the frames of [current_env] before
    the call, none has afterwards. *)
Theorem X8_request_keeps_env_consistent s name dim res s' :
  env_consistent s →
  request s name dim = Ok (res, s') →
  env_consistent s'.
Proof.
  intros Hcons Hreq.
  destruct (request_lookup_phase _ _ _ _ _ Hreq) as (n0 & d0 & found & ty & Hlk).
  destruct found.
  { rewrite (request_found _ _ _ _ _ _ Hlk) in Hreq. by injection Hreq as _ <-. }
  destruct (request_alloc_inv _ _ _ _ _ _ _ _ Hlk Hreq)
    as (n & d & env & frames & -> & Henv & Hg & Hwf & Hsub
        & Hst & _ & _ & Hin & Hnin).
  apply gendim_ok in Hg as (_ & env' & Henv' & _ & Hv).
  rewrite Henv in Henv'. injection Henv' as <-.
  apply validate_ok in Hv as (_ & Hfree & _).
  pose proof (proj1 (in_any_dim_to_name_false _ _ _) Hfree) as Hdnone.
  intros env1 r1 r2 d' n1 n2 Henv1 Hr1 Hr2 Hb1 Hb2.
  rewrite (written_current_env s s' frames n d Hst Hin Hnin), Henv in Henv1.
  injection Henv1 as <-.
  pose proof (dim_after_allocation s s' env frames n d r1 d' n1
                Hin Hnin Hdnone Hr1 Hb1) as Hcase1.
  pose proof (dim_after_allocation s s' env frames n d r2 d' n2
                Hin Hnin Hdnone Hr2 Hb2) as Hcase2.
  destruct Hcase1 as [[Heq1 ->]|[Hne1 Hold1]],
           Hcase2 as [[Heq2 ->]|[Hne2 Hold2]]; try done.
  by apply (Hcons env r1 r2 d' n1 n2).
Qed.

Lemma X8_request_keeps_env_consistent_witness :
  env_consistent st_nested ∧ env_consistent st_nested_y.
Proof.
  assert (env_consistent st_nested) as Hbefore;
    [|split; [exact Hbefore|];
      refine (X8_request_keeps_env_consistent st_nested
                (NameReq (mkNameRequest (Some "y") LOCAL)) (DimVal None)
                (Some "y", Some (-2)) st_nested_y Hbefore _);
      vm_compute; reflexivity].
  intros env r1 r2 d n1 n2 Henv Hr1 Hr2 Hb1 Hb2.
  vm_compute in Henv. injection Henv as <-.
  assert (∀ r m, r ∈ [0%nat; 1%nat; 0%nat] →
                 dim_to_name (frame_at st_nested r) !! d = Some m →
                 dim_to_name (frame_at st_nested 0%nat) !! d = Some m) as Hzero.
  { intros r m Hr Hb. repeat (apply elem_of_cons in Hr as [->|Hr]); try done.
    by apply elem_of_nil in Hr. }
  apply Hzero in Hb1, Hb2; try done. rewrite Hb1 in Hb2. by injection Hb2.
Defined.

(** The read loop stops at the global frame when it knows the name or the
    dim asked for. *)
Lemma global_frame_lookup s g :
  global_frame s = Ok g →
  (∀ n d ty, name_to_dim (frame_at s g) !! n = Some d →
     lookup_phase s (NameReq (mkNameRequest (Some n) ty)) (DimVal None)
       = Ok (Some n, Some d, true, ty)) ∧
  (∀ n d ty, dim_to_name (frame_at s g) !! d = Some n →
     lookup_phase s (NameVal None) (DimReq (mkDimRequest (Some d) ty))
       = Ok (Some n, Some d, true, ty)).
Proof.
  intros Hg. destruct (global_then_current s g Hg) as (c & _ & Henv).
  split; intros n d ty Hb;
    unfold lookup_phase; cbn [unpack nr_name nr_dim_type dr_dim dr_dim_type
                                mbind result_bind];
    rewrite Henv; cbn [mbind result_bind app read_env].
  - by rewrite (read_known_name _ n d Hb).
  - by rewrite (read_known_dim _ n d Hb).
Qed.

(** X9. The global frame is read first.  If it binds the name, a request by
    name returns the global frame's dim, and if it binds the dim, a request
    by dim returns the global frame's name, whatever the current frame and
    its parents hold and whatever the policy; the state is unchanged. *)
Theorem X9_global_frame_read_first s g :
  global_frame s = Ok g →
  (∀ n d ty, name_to_dim (frame_at s g) !! n = Some d →
     request s (NameReq (mkNameRequest (Some n) ty)) (DimVal None)
       = Ok ((Some n, Some d), s)) ∧
  (∀ n d ty, dim_to_name (frame_at s g) !! d = Some n →
     request s (NameVal None) (DimReq (mkDimRequest (Some d) ty))
       = Ok ((Some n, Some d), s)).
Proof.
  intros Hg. destruct (global_frame_lookup s g Hg) as [Hname Hdim].
  split; intros n d ty Hb; apply (request_found _ _ _ _ _ ty).
  - by apply Hname.
  - by apply Hdim.
Qed.

Lemma X9_global_frame_read_first_witness :
  name_to_dim (frame_at st_shadow 1%nat) !! "x" = Some (-9) ∧
  request st_shadow (NameReq (mkNameRequest (Some "x") LOCAL)) (DimVal None)
    = Ok ((Some "x", Some (-1)), st_shadow).
Proof.
  split; [vm_compute; reflexivity|].
  refine (proj1 (X9_global_frame_read_first st_shadow 0%nat _) "x" (-1) LOCAL _);
    vm_compute; reflexivity.
Defined.

(** * Running out of dims *)

Section exhaustion.
Implicit Types (s : DimStack) (env : list fref) (ty : DimType).

(** The search returns the first dim at or below its start that no frame of
    the collision set binds. *)
Lemma search_result s env ty :
  ∃ c, fresh_dim_of s env (mkDimRequest None ty) = Ok c ∧
    c ≤ search_start s ty ∧
    in_any_dim_to_name s env c = false ∧
    (∀ d, c < d ≤ search_start s ty → in_any_dim_to_name s env d = true).
Proof.
  unfold fresh_dim_of, search_start; cbn [dr_dim dr_dim_type].
  set (d0 := match (if bool_decide (ty ≠ VISIBLE)
                    then _first_available_dim s else Some (-1)) with
             | Some d => d | None => -1 end).
  replace (if bool_decide (ty ≠ VISIBLE)
           then default (-1) (_first_available_dim s) else -1) with d0.
  - destruct (search_stops s env d0) as [c Hc]. rewrite Hc.
    apply while_taken_stops in Hc. eauto.
  - unfold d0. destruct (bool_decide (ty ≠ VISIBLE)); [|done].
    by destruct (_first_available_dim s).
Qed.

Lemma validate_passes s env ty fn c :
  ty ≠ VISIBLE → MAX_DIM ≤ c → in_any_dim_to_name s env c = false →
  validate s env ty fn c = Ok ().
Proof.
  intros Hty Hfloor Hfree. unfold validate. rewrite Hfree.
  apply Z.ltb_ge in Hfloor. rewrite Hfloor. simpl.
  by rewrite bool_decide_eq_false_2.
Qed.
End exhaustion.

(** X10. Under LOCAL and GLOBAL, a request by name that the lookup does not
    answer raises the "ran out of free dims" error exactly when every dim
    from the start of the search down to [MAX_DIM] is bound in some frame of
    the environment; otherwise it succeeds with the given name and the
    first free dim at or below the start. *)
Theorem X10_exhausted_iff_all_taken s name dim n ty env :
  ty ≠ VISIBLE →
  lookup_phase s name dim = Ok (Some n, None, false, ty) →
  current_env s = Ok env →
  (request s name dim = Raise (ran_out n) ↔
     ∀ d, MAX_DIM ≤ d ≤ search_start s ty →
          in_any_dim_to_name s env d = true) ∧
  (request s name dim = Raise (ran_out n) ∨
   ∃ c s', request s name dim = Ok ((Some n, Some c), s') ∧
     MAX_DIM ≤ c ≤ search_start s ty ∧
     in_any_dim_to_name s env c = false ∧
     ∀ d, c < d ≤ search_start s ty → in_any_dim_to_name s env d = true).
Proof.
  intros Hty Hlk Henv.
  destruct (search_result s env ty) as (c & Hc & Hle & Hfree & Hbetween).
  assert (fresh_name_of (mkNameRequest (Some n) ty) (mkDimRequest None ty) = Ok n)
    as Hfn by done.
  destruct (decide (c < MAX_DIM)) as [Hlow|Hhigh].
  - assert (request s name dim = Raise (ran_out n)) as Hraise.
    { apply (request_raises _ _ _ _ _ _ _ Hlk).
      rewrite (gendim_validate _ _ _ _ _ _ Hfn Henv Hc).
      by rewrite validate_floor. }
    split; [|by left]. split; [|done].
    intros _ d Hd. apply Hbetween. lia.
  - destruct (request_succeeds s name dim (Some n) None ty n env c
                Hlk Hfn Henv Hc) as [s' Hok].
    { apply validate_passes; [done|lia|done]. }
    split.
    + split.
      * intros Hraise. rewrite Hok in Hraise. discriminate Hraise.
      * intros Hall. rewrite Hall in Hfree by lia. discriminate Hfree.
    + right. exists c, s'. repeat split; try done. lia.
Qed.

Lemma X10_exhausted_iff_all_taken_witness :
  request st_full (NameReq (mkNameRequest (Some "n") LOCAL)) (DimVal None)
    = Raise (ran_out "n") ∧
  (request st_x (NameReq (mkNameRequest (Some "n") LOCAL)) (DimVal None)
     = Raise (ran_out "n") ∨
   ∃ c s', request st_x (NameReq (mkNameRequest (Some "n") LOCAL)) (DimVal None)
             = Ok ((Some "n", Some c), s') ∧
     MAX_DIM ≤ c ≤ search_start st_x LOCAL ∧
     in_any_dim_to_name st_x [0%nat; 0%nat] c = false ∧
     ∀ d, c < d ≤ search_start st_x LOCAL →
          in_any_dim_to_name st_x [0%nat; 0%nat] d = true).
Proof.
  split.
  - refine (proj2 (proj1 (X10_exhausted_iff_all_taken st_full
              (NameReq (mkNameRequest (Some "n") LOCAL)) (DimVal None)
              "n" LOCAL [0%nat; 0%nat] _ _ _)) _); try (vm_compute; reflexivity).
    + discriminate.
    + intros d Hd. change (search_start st_full LOCAL) with (-24) in Hd.
      unfold MAX_DIM in Hd.
      assert (d = -25 ∨ d = -24) as Hcases by lia.
      destruct Hcases as [-> | ->]; vm_compute; reflexivity.
  - refine (proj2 (X10_exhausted_iff_all_taken st_x
              (NameReq (mkNameRequest (Some "n") LOCAL)) (DimVal None)
              "n" LOCAL [0%nat; 0%nat] _ _ _)); try (vm_compute; reflexivity).
    discriminate.
Defined.

(** X11. A [request] whose two arguments are both descriptors, or both plain
    values, fails its assertion.  On a stack that holds the global frame, a
    [request] that carries neither a name nor a dim raises [TypeError]: the
    lookup cannot find [None], and the default name needs a dim. *)
Theorem X11_request_needs_name_or_dim s ty :
  (1 ≤ length (_stack s))%nat →
  (∀ nr dr, request s (NameReq nr) (DimReq dr) = Raise AssertionError) ∧
  (∀ n d, request s (NameVal n) (DimVal d) = Raise AssertionError) ∧
  request s (NameReq (mkNameRequest None ty)) (DimVal None) = Raise TypeError ∧
  request s (NameVal None) (DimReq (mkDimRequest None ty)) = Raise TypeError.
Proof.
  intros Hlen. destruct (nonempty_stack_env s Hlen) as [env Henv].
  split; [done|]. split; [done|].
  assert (∀ name dim,
            unpack name dim = Ok (None, None, ty) →
            request s name dim = Raise TypeError) as Hnone.
  { intros name dim Hu.
    apply (request_raises _ _ _ None None ty).
    - unfold lookup_phase. rewrite Hu. cbn [mbind result_bind].
      rewrite Henv. cbn [mbind result_bind]. by rewrite read_env_nothing.
    - done. }
  split; by apply Hnone.
Qed.

Lemma X11_request_needs_name_or_dim_witness :
  request st_nested (NameReq (mkNameRequest None GLOBAL)) (DimVal None)
    = Raise TypeError.
Proof.
  refine (proj1 (proj2 (proj2 (X11_request_needs_name_or_dim st_nested GLOBAL _)))).
  vm_compute. lia.
Defined.

Lemma append_cancel_l (p a b : string) : p +:+ a = p +:+ b → a = b.
Proof.
  induction p as [|c p IH]; simpl; [done|]. intros [= Heq]. by apply IH.
Qed.

(** X12. Default names are distinct for distinct dims: two dims get the
    same default name only if they are equal. *)
Theorem X12_default_name_injective d1 d2 :
  default_name d1 = default_name d2 ↔ d1 = d2.
Proof.
  split; [|by intros ->].
  unfold default_name. intros Heq%append_cancel_l.
  apply (inj pretty) in Heq. lia.
Qed.

(** * Scopes *)

Section scopes.
Implicit Types (s : DimStack) (env frames : list fref).

Lemma current_env_ext s s' :
  _stack s' = _stack s →
  (∀ c, current_frame s = Ok c → frame_at s' c = frame_at s c) →
  current_env s' = current_env s.
Proof.
  intros Hst Hcur. unfold current_env, global_frame.
  assert (current_frame s' = current_frame s) as Hsame
    by (unfold current_frame; by rewrite Hst).
  rewrite Hst, Hsame. destruct (head (_stack s)) as [g|]; [|done].
  cbn [mbind result_bind].
  destruct (current_frame s) as [c|] eqn:Hc; [|done]. cbn [mbind result_bind].
  by rewrite (Hcur c eq_refl).
Qed.

Lemma lookup_phase_ext s s' env name dim :
  current_env s = Ok env → current_env s' = Ok env →
  (∀ r, r ∈ env → frame_at s' r = frame_at s r) →
  lookup_phase s' name dim = lookup_phase s name dim.
Proof.
  intros Henv Henv' Hsame. unfold lookup_phase.
  destruct (unpack name dim) as [[[n0 d0] ty]|]; [|done].
  cbn [mbind result_bind]. rewrite Henv, Henv'. cbn [mbind result_bind].
  by rewrite (read_env_ext s s' env n0 d0 Hsame).
Qed.

(** What an allocating LOCAL or non-LOCAL [request] made right after
    [push(f)] writes, and the [pop] that follows. *)
Lemma scope_request s f name dim n0 d0 ty res s2 :
  (1 ≤ length (_stack s))%nat →
  lookup_phase (set_stack s (_stack s ++ [f])) name dim = Ok (n0, d0, false, ty) →
  request (set_stack s (_stack s ++ [f])) name dim = Ok (res, s2) →
  ∃ n d frames g,
    res = (Some n, Some d) ∧
    head (_stack s) = Some g ∧
    frames = (if bool_decide (ty ≠ LOCAL) then [g]
              else f :: (if keep (frame_at s f)
                         then parents (frame_at s f) else [])) ∧
    (∀ r, r ∈ frames → frame_at s2 r = bind_pair n d (frame_at s r)) ∧
    (∀ r, r ∉ frames → store s2 !! r = store s !! r) ∧
    _first_available_dim s2 = _first_available_dim s ∧
    pop s2 = Ok (f, set_stack s2 (_stack s)).
Proof.
  intros Hlen Hlk Hreq.
  destruct (request_alloc_inv _ _ _ _ _ _ _ _ Hlk Hreq)
    as (n & d & env & frames & -> & _ & _ & Hwf & _ & Hst & Hfad & _ & Hin & Hnin).
  destruct (_stack s) as [|g st] eqn:Hstack; [simpl in Hlen; lia|].
  exists n, d, frames, g. split; [done|]. split; [done|].
  assert (frames = (if bool_decide (ty ≠ LOCAL) then [g]
                    else f :: (if keep (frame_at s f)
                               then parents (frame_at s f) else []))) as Hframes.
  { unfold write_frames, global_frame, current_frame in Hwf.
    cbn [_stack set_stack] in Hwf. rewrite last_snoc in Hwf. simpl in Hwf.
    destruct (bool_decide (ty ≠ LOCAL)); by injection Hwf as <-. }
  split; [done|]. split; [done|]. split; [done|]. split; [done|].
  apply pop_top; [by rewrite Hst|done].
Qed.
End scopes.

(** X13. A LOCAL binding leaves with its scope.  After [push(f)] for a frame
    with [keep] unset, an allocating LOCAL [request] and [pop], only [f] has
    been written: the stack, the watermark and every other frame are as
    before the [push], and if [f] is not part of the environment then, every
    lookup is answered as it was before the [push]. *)
Theorem X13_local_binding_leaves_with_scope s f s1 name dim n0 d0 res s2 :
  (1 ≤ length (_stack s))%nat →
  keep (frame_at s f) = false →
  push s f = Ok ((), s1) →
  lookup_phase s1 name dim = Ok (n0, d0, false, LOCAL) →
  request s1 name dim = Ok (res, s2) →
  ∃ s3, pop s2 = Ok (f, s3) ∧
    _stack s3 = _stack s ∧
    _first_available_dim s3 = _first_available_dim s ∧
    (∀ r, r ≠ f → store s3 !! r = store s !! r) ∧
    (∀ env, current_env s = Ok env → f ∉ env →
       current_env s3 = Ok env ∧
       ∀ name' dim', lookup_phase s3 name' dim' = lookup_phase s name' dim').
Proof.
  intros Hlen Hkeep [= <-] Hlk Hreq.
  destruct (scope_request s f name dim n0 d0 LOCAL res s2 Hlen Hlk Hreq)
    as (n & d & frames & g & -> & Hg & Hframes & Hin & Hnin & Hfad & Hpop).
  rewrite bool_decide_eq_false_2, Hkeep in Hframes by (intros Hne; by apply Hne).
  subst frames. exists (set_stack s2 (_stack s)).
  assert (∀ r, r ≠ f → store s2 !! r = store s !! r) as Hother.
  { intros r Hr. apply Hnin. by intros ->%list_elem_of_singleton. }
  do 3 (split; [done|]). split; [done|].
  intros env Henv Hfresh.
  assert (∀ r, r ∈ env → frame_at (set_stack s2 (_stack s)) r = frame_at s r)
    as Hsame.
  { intros r Hr. apply (frame_at_unwritten s). apply Hother. by intros ->. }
  assert (current_env (set_stack s2 (_stack s)) = Ok env) as Henv3.
  { rewrite <- Henv. apply current_env_ext; [done|].
    intros c Hc. apply Hsame.
    apply current_env_ok in Henv as (g' & c' & _ & Hc' & ->).
    rewrite Hc in Hc'. injection Hc' as <-.
    apply elem_of_cons; right. apply elem_of_cons; by left. }
  split; [done|]. intros name' dim'. by apply (lookup_phase_ext s _ env).
Qed.

Lemma X13_local_binding_leaves_with_scope_witness :
  ∃ s3, pop (exec (exec st_x (OpPush 5%nat))
                  (OpRequest (NameReq (mkNameRequest (Some "y") LOCAL)) (DimVal None)))
          = Ok (5%nat, s3) ∧
    _stack s3 = _stack st_x ∧
    _first_available_dim s3 = _first_available_dim st_x ∧
    (∀ r, r ≠ 5%nat → store s3 !! r = store st_x !! r) ∧
    (∀ env, current_env st_x = Ok env → 5%nat ∉ env →
       current_env s3 = Ok env ∧
       ∀ name' dim', lookup_phase s3 name' dim' = lookup_phase st_x name' dim').
Proof.
  refine (X13_local_binding_leaves_with_scope st_x 5%nat
            (exec st_x (OpPush 5%nat))
            (NameReq (mkNameRequest (Some "y") LOCAL)) (DimVal None)
            (Some "y") None (Some "y", Some (-2)) _ _ _ _ _ _).
  - vm_compute. lia.
  - vm_compute. reflexivity.
  - vm_compute. reflexivity.
  - vm_compute. reflexivity.
  - vm_compute. reflexivity.
Defined.

(** X14. With [keep] set, a LOCAL binding stays in the parents.  After
    [push(f)], an allocating LOCAL [request] and [pop], every frame listed in
    [f.parents] binds the new pair in both directions. *)
Theorem X14_keep_writes_parents s f s1 name dim n0 d0 n d s2 :
  (1 ≤ length (_stack s))%nat →
  keep (frame_at s f) = true →
  push s f = Ok ((), s1) →
  lookup_phase s1 name dim = Ok (n0, d0, false, LOCAL) →
  request s1 name dim = Ok ((Some n, Some d), s2) →
  ∃ s3, pop s2 = Ok (f, s3) ∧
    ∀ p, p ∈ parents (frame_at s f) →
      name_to_dim (frame_at s3 p) !! n = Some d ∧
      dim_to_name (frame_at s3 p) !! d = Some n.
Proof.
  intros Hlen Hkeep [= <-] Hlk Hreq.
  destruct (scope_request s f name dim n0 d0 LOCAL _ s2 Hlen Hlk Hreq)
    as (n' & d' & frames & g & [= <- <-] & Hg & Hframes & Hin & Hnin & Hfad & Hpop).
  rewrite bool_decide_eq_false_2, Hkeep in Hframes by (intros Hne; by apply Hne).
  subst frames. exists (set_stack s2 (_stack s)). split; [done|].
  intros p Hp.
  change (frame_at (set_stack s2 (_stack s)) p) with (frame_at s2 p).
  rewrite (Hin p) by (apply elem_of_cons; by right).
  simpl. by rewrite !lookup_insert_eq.
Qed.

Lemma X14_keep_writes_parents_witness :
  ∃ s3, pop st_nested_y = Ok (1%nat, s3) ∧
    ∀ p, p ∈ parents (frame_at (exec st_x (OpNewFrame [0%nat] [] true)) 1%nat) →
      name_to_dim (frame_at s3 p) !! "y" = Some (-2) ∧
      dim_to_name (frame_at s3 p) !! (-2) = Some "y".
Proof.
  refine (X14_keep_writes_parents (exec st_x (OpNewFrame [0%nat] [] true)) 1%nat
            st_nested (NameReq (mkNameRequest (Some "y") LOCAL)) (DimVal None)
            (Some "y") None "y" (-2) st_nested_y _ _ _ _ _).
  - vm_compute. lia.
  - vm_compute. reflexivity.
  - vm_compute. reflexivity.
  - vm_compute. reflexivity.
  - vm_compute. reflexivity.
Defined.

(** X15. A GLOBAL or VISIBLE binding outlives the scope it was made in.
    After [push(f)], an allocating request under one of these policies and
    [pop], a request for the new name or for the new dim returns the pair,
    under any policy, without changing the state. *)
Theorem X15_global_binding_outlives_scope s f s1 name dim n0 d0 ty n d s2 :
  (1 ≤ length (_stack s))%nat →
  ty ≠ LOCAL →
  push s f = Ok ((), s1) →
  lookup_phase s1 name dim = Ok (n0, d0, false, ty) →
  request s1 name dim = Ok ((Some n, Some d), s2) →
  ∃ s3, pop s2 = Ok (f, s3) ∧
    ∀ ty',
      request s3 (NameReq (mkNameRequest (Some n) ty')) (DimVal None)
        = Ok ((Some n, Some d), s3) ∧
      request s3 (NameVal None) (DimReq (mkDimRequest (Some d) ty'))
        = Ok ((Some n, Some d), s3).
Proof.
  intros Hlen Hty [= <-] Hlk Hreq.
  destruct (scope_request s f name dim n0 d0 ty _ s2 Hlen Hlk Hreq)
    as (n' & d' & frames & g & [= <- <-] & Hg & Hframes & Hin & Hnin & Hfad & Hpop).
  rewrite bool_decide_eq_true_2 in Hframes by done. subst frames.
  exists (set_stack s2 (_stack s)). split; [done|]. intros ty'.
  assert (global_frame (set_stack s2 (_stack s)) = Ok g) as Hglobal.
  { unfold global_frame; simpl. by rewrite Hg. }
  destruct (global_frame_lookup _ g Hglobal) as [Hname Hdim].
  assert (frame_at (set_stack s2 (_stack s)) g = bind_pair n d (frame_at s g))
    as Hwritten.
  { change (frame_at (set_stack s2 (_stack s)) g) with (frame_at s2 g).
    apply Hin. apply elem_of_cons; by left. }
  split; apply (request_found _ _ _ _ _ ty').
  - apply Hname. rewrite Hwritten. simpl. by rewrite lookup_insert_eq.
  - apply Hdim. rewrite Hwritten. simpl. by rewrite lookup_insert_eq.
Qed.

Lemma X15_global_binding_outlives_scope_witness :
  ∃ s3, pop (exec (exec st_x (OpPush 5%nat))
                  (OpRequest (NameReq (mkNameRequest (Some "g") GLOBAL)) (DimVal None)))
          = Ok (5%nat, s3) ∧
    ∀ ty',
      request s3 (NameReq (mkNameRequest (Some "g") ty')) (DimVal None)
        = Ok ((Some "g", Some (-2)), s3) ∧
      request s3 (NameVal None) (DimReq (mkDimRequest (Some (-2)) ty'))
        = Ok ((Some "g", Some (-2)), s3).
Proof.
  refine (X15_global_binding_outlives_scope st_x 5%nat
            (exec st_x (OpPush 5%nat))
            (NameReq (mkNameRequest (Some "g") GLOBAL)) (DimVal None)
            (Some "g") None GLOBAL "g" (-2) _ _ _ _ _ _).
  - vm_compute. lia.
  - discriminate.
  - vm_compute. reflexivity.
  - vm_compute. reflexivity.
  - vm_compute. reflexivity.
Defined.

(** * Resolving a new pair from its dim *)

Section by_dim.
Implicit Types (s : DimStack) (env frames : list fref).

Lemma read_env_written_dim s s' env frames n d :
  (∀ r, r ∈ frames → frame_at s' r = bind_pair n d (frame_at s r)) →
  (∀ r, r ∉ frames → store s' !! r = store s !! r) →
  (∀ r, r ∈ env → dim_to_name (frame_at s r) !! d = None) →
  (∃ r, r ∈ env ∧ r ∈ frames) →
  read_env s' env None (Some d) = (Some n, Some d, true).
Proof.
  intros Hin Hnin. induction env as [|r env IH]; intros Hmiss (r0 & Hr0 & Hw).
  { by apply elem_of_nil in Hr0. }
  cbn [read_env]. destruct (decide (r ∈ frames)) as [Hr|Hr].
  - rewrite (Hin r Hr).
    rewrite (read_known_dim _ n d); [done|]. simpl. by rewrite lookup_insert_eq.
  - rewrite (frame_at_unwritten _ _ _ (Hnin r Hr)).
    rewrite read_unknown_dim by (apply Hmiss, elem_of_cons; by left).
    apply IH.
    + intros r' Hr'. apply Hmiss. apply elem_of_cons; by right.
    + exists r0. split; [|done].
      apply elem_of_cons in Hr0 as [->|Hr0]; done.
Qed.
End by_dim.

(** X16. A newly allocated pair can be resolved from its dim: in the state
    an allocating [request] leaves, a request by that dim with no name
    returns the same pair, under any policy, and changes nothing. *)
Theorem X16_new_pair_resolves_by_dim s name dim n0 d0 ty n d s' :
  lookup_phase s name dim = Ok (n0, d0, false, ty) →
  request s name dim = Ok ((Some n, Some d), s') →
  ∀ ty',
    request s' (NameVal None) (DimReq (mkDimRequest (Some d) ty'))
      = Ok ((Some n, Some d), s').
Proof.
  intros Hlk Hreq ty'.
  destruct (request_alloc_inv _ _ _ _ _ _ _ _ Hlk Hreq)
    as (n' & d' & env & frames & [= <- <-] & Henv & Hg & Hwf & Hsub
        & Hst & _ & _ & Hin & Hnin).
  apply gendim_ok in Hg as (_ & env' & Henv' & _ & Hv).
  rewrite Henv in Henv'. injection Henv' as <-.
  apply validate_ok in Hv as (_ & Hfree & _).
  pose proof (proj1 (in_any_dim_to_name_false _ _ _) Hfree) as Hdnone.
  apply (request_found _ _ _ _ _ ty').
  unfold lookup_phase. cbn [unpack dr_dim dr_dim_type mbind result_bind].
  rewrite (written_current_env s s' frames n d Hst Hin Hnin), Henv.
  cbn [mbind result_bind].
  rewrite (read_env_written_dim s s' env frames n d Hin Hnin Hdnone); [done|].
  destruct (write_frames_nonempty _ _ _ Hwf) as [r Hr]. eauto.
Qed.

Lemma X16_new_pair_resolves_by_dim_witness :
  request st_nested_y (NameVal None) (DimReq (mkDimRequest (Some (-2)) VISIBLE))
    = Ok ((Some "y", Some (-2)), st_nested_y).
Proof.
  refine (X16_new_pair_resolves_by_dim st_nested
            (NameReq (mkNameRequest (Some "y") LOCAL)) (DimVal None)
            (Some "y") None LOCAL "y" (-2) st_nested_y _ _ VISIBLE);
    vm_compute; reflexivity.
Defined.


(** * Requests that give the dim *)

(** X17. After a failed lookup, a request that gives its dim is decided by
    the bounds alone, since the collision test cannot fire: below [MAX_DIM]
    it raises the "ran out of free dims" error; otherwise under LOCAL and
    GLOBAL it succeeds with exactly that dim and the given or default name,
    and under VISIBLE it succeeds when the dim is above the watermark, raises
    the same error when it is not, and raises [TypeError] when the watermark
    is unset. *)
Theorem X17_given_dim_allocation s name dim n0 d ty :
  lookup_phase s name dim = Ok (n0, Some d, false, ty) →
  let fn := default (default_name d) n0 in
  (d < MAX_DIM → request s name dim = Raise (ran_out fn)) ∧
  (MAX_DIM ≤ d → ty ≠ VISIBLE →
     ∃ s', request s name dim = Ok ((Some fn, Some d), s')) ∧
  (MAX_DIM ≤ d → ty = VISIBLE →
     match _first_available_dim s with
     | None => request s name dim = Raise TypeError
     | Some w =>
         if d <=? w then request s name dim = Raise (ran_out fn)
         else ∃ s', request s name dim = Ok ((Some fn, Some d), s')
     end).
Proof.
  intros Hlk fn.
  pose proof Hlk as (_ & env & Henv & Hmiss)%lookup_phase_miss.
  assert (fresh_name_of (mkNameRequest n0 ty) (mkDimRequest (Some d) ty) = Ok fn)
    as Hfn by (unfold fn; by destruct n0).
  assert (fresh_dim_of s env (mkDimRequest (Some d) ty) = Ok d) as Hfd by done.
  assert (in_any_dim_to_name s env d = false) as Hfree.
  { apply in_any_dim_to_name_false. intros r Hr.
    destruct (Hmiss r Hr) as [_ Hd]. by apply dict_in_false in Hd. }
  split; [|split].
  - intros Hlow. apply (request_raises _ _ _ _ _ _ _ Hlk).
    rewrite (gendim_validate _ _ _ _ _ _ Hfn Henv Hfd). by rewrite validate_floor.
  - intros Hfloor Hty.
    apply (request_succeeds s name dim n0 (Some d) ty fn env d Hlk Hfn Henv Hfd).
    by apply validate_passes.
  - intros Hfloor ->.
    assert (validate s env VISIBLE fn d =
            match _first_available_dim s with
            | None => Raise TypeError
            | Some w => if d <=? w then Raise (ran_out fn) else Ok ()
            end) as Hv.
    { unfold validate. rewrite Hfree. apply Z.ltb_ge in Hfloor.
      by rewrite Hfloor. }
    destruct (_first_available_dim s) as [w|].
    + destruct (d <=? w).
      * apply (request_raises _ _ _ _ _ _ _ Hlk).
        rewrite (gendim_validate _ _ _ _ _ _ Hfn Henv Hfd).
        cbn [dr_dim_type]. by rewrite Hv.
      * by apply (request_succeeds s name dim n0 (Some d) VISIBLE fn env d).
    + apply (request_raises _ _ _ _ _ _ _ Hlk).
      rewrite (gendim_validate _ _ _ _ _ _ Hfn Henv Hfd).
      cbn [dr_dim_type]. by rewrite Hv.
Qed.

Lemma X17_given_dim_allocation_witness :
  request st_watermark (NameVal None) (DimReq (mkDimRequest (Some (-30)) LOCAL))
    = Raise (ran_out (default_name (-30))) ∧
  ∃ s', request st_watermark (NameVal (Some "v"))
                (DimReq (mkDimRequest (Some (-2)) VISIBLE))
        = Ok ((Some "v", Some (-2)), s').
Proof.
  split.
  - refine (proj1 (X17_given_dim_allocation st_watermark (NameVal None)
              (DimReq (mkDimRequest (Some (-30)) LOCAL)) None (-30) LOCAL _) _).
    + vm_compute. reflexivity.
    + unfold MAX_DIM. lia.
  - refine (proj2 (proj2 (X17_given_dim_allocation st_watermark
              (NameVal (Some "v")) (DimReq (mkDimRequest (Some (-2)) VISIBLE))
              (Some "v") (-2) VISIBLE _)) _ eq_refl).
    + vm_compute. reflexivity.
    + unfold MAX_DIM. lia.
Defined.

(** * Nested scopes *)

Section nesting.
Implicit Types (s : DimStack) (fs : list fref).

Lemma run_snoc s ops o : run s (ops ++ [o]) = exec (run s ops) o.
Proof. unfold run. by rewrite foldl_snoc. Qed.

Lemma pop_after_push s f :
  (1 ≤ length (_stack s))%nat → pop (exec s (OpPush f)) = Ok (f, s).
Proof.
  intros Hlen. unfold exec; simpl.
  rewrite (pop_top _ (_stack s) f); simpl; [by destruct s|done|].
  intros Hnil. rewrite Hnil in Hlen. simpl in Hlen. lia.
Qed.
End nesting.

(** X18. Frames leave in the reverse order of their entry: after pushing a
    list of frames onto a stack that holds the global frame, as many calls
    of [pop] return those frames last-in first-out and leave the state that
    was there before the first [push]. *)
Theorem X18_pops_reverse_pushes s fs :
  (1 ≤ length (_stack s))%nat →
  pop_n (length fs) (run s (map OpPush fs)) = Ok (rev fs, s).
Proof.
  intros Hlen. induction fs as [|f fs IH] using rev_ind; [done|].
  rewrite map_app. change (map OpPush [f]) with [OpPush f].
  rewrite run_snoc, length_app, Nat.add_1_r, rev_unit.
  cbn [pop_n].
  rewrite pop_after_push by (by apply run_keeps_global).
  cbn [mbind result_bind]. by rewrite IH.
Qed.

Lemma X18_pops_reverse_pushes_witness :
  pop_n (length [4%nat; 5%nat; 4%nat])
        (run st_nested (map OpPush [4%nat; 5%nat; 4%nat]))
    = Ok (rev [4%nat; 5%nat; 4%nat], st_nested).
Proof.
  apply (X18_pops_reverse_pushes st_nested [4%nat; 5%nat; 4%nat]).
  vm_compute. lia.
Defined.

(** * What [request] leaves alone *)

(** X19. [request] only adds: every dim that a frame binds before the call
    is bound to the same name afterwards, and every name that a frame binds
    before the call is bound to the same dim afterwards unless it is the
    very name the call returns. *)
Theorem X19_request_only_adds s name dim n d s' :
  request s name dim = Ok ((n, d), s') →
  (∀ r d' m, dim_to_name (frame_at s r) !! d' = Some m →
             dim_to_name (frame_at s' r) !! d' = Some m) ∧
  (∀ r n' z, name_to_dim (frame_at s r) !! n' = Some z → n ≠ Some n' →
             name_to_dim (frame_at s' r) !! n' = Some z).
Proof.
  intros Hreq.
  destruct (request_lookup_phase _ _ _ _ _ Hreq) as (n0 & d0 & found & ty & Hlk).
  destruct found.
  { rewrite (request_found _ _ _ _ _ _ Hlk) in Hreq. by injection Hreq as _ _ <-. }
  destruct (request_alloc_inv _ _ _ _ _ _ _ _ Hlk Hreq)
    as (n1 & d1 & env & frames & [= -> ->] & Henv & Hg & Hwf & Hsub
        & _ & _ & _ & Hin & Hnin).
  apply gendim_ok in Hg as (_ & env' & Henv' & _ & Hv).
  rewrite Henv in Henv'. injection Henv' as <-.
  apply validate_ok in Hv as (_ & Hfree & _).
  pose proof (proj1 (in_any_dim_to_name_false _ _ _) Hfree) as Hdnone.
  split.
  - intros r d' m Hb. destruct (decide (r ∈ frames)) as [Hr|Hr].
    + rewrite (Hin r Hr). simpl. rewrite lookup_insert_ne; [done|].
      intros <-. by rewrite (Hdnone r (Hsub r Hr)) in Hb.
    + by rewrite (frame_at_unwritten _ _ _ (Hnin r Hr)).
  - intros r n' z Hb Hne. destruct (decide (r ∈ frames)) as [Hr|Hr].
    + rewrite (Hin r Hr). simpl. rewrite lookup_insert_ne; [done|].
      intros <-. by apply Hne.
    + by rewrite (frame_at_unwritten _ _ _ (Hnin r Hr)).
Qed.

Lemma X19_request_only_adds_witness :
  (∀ r d' m, dim_to_name (frame_at st_nested r) !! d' = Some m →
             dim_to_name (frame_at st_nested_y r) !! d' = Some m) ∧
  (∀ r n' z, name_to_dim (frame_at st_nested r) !! n' = Some z →
             Some "y" ≠ Some n' →
             name_to_dim (frame_at st_nested_y r) !! n' = Some z).
Proof.
  refine (X19_request_only_adds st_nested
            (NameReq (mkNameRequest (Some "y") LOCAL)) (DimVal None)
            (Some "y") (Some (-2)) st_nested_y _).
  vm_compute. reflexivity.
Defined.
